(** * Image layer squashing (pkg/cmd/image/squash.go)

    A shallow embedding of the squash pipeline of nerdctl and the
    verification of its layer selection, config rewriting, manifest
    writing, snapshot diffing and image-record upsert.

    Conventions of the embedding:
    - a Go [int] is a [Z]; no operation of this file can overflow, since the
      only arithmetic is on slice lengths and loop counters bounded by them;
    - a Go slice is a [list]; slicing beyond the length is a run-time panic
      (the capacity of a slice is taken to be its length);
    - a Go [string], a [digest.Digest] and a [[]byte] are a [string];
    - a Go [error] value is an [option error], [None] being [nil]; a
      [(T, error)] result is a [result T], except where the code reads the
      value that comes with a non-nil error, where it stays a pair;
    - every call to a collaborator (image store, content store, snapshotter,
      diff service, lease manager, clock, random source) is an [Event] of a
      free monad [Prog]; a run threads an arbitrary handler state and
      records the calls and their responses in a trace;
    - logging calls are left out: they have no effect on results or stores. *)

From Stdlib Require Import ZArith List Ascii String Lia.
From stdpp Require Import base option list strings pretty gmap.

Local Open Scope string_scope.
Local Open Scope list_scope.
Local Open Scope Z_scope.

(** ** Errors (errors, fmt.Errorf with %w, containerd/errdefs) *)

Inductive error : Type :=
| ErrNotFound
| ErrInvalidArgument
| ErrAlreadyExists
| errors_New (msg : string)
| Errorf_w (msg : string) (wrapped : error).

Inductive result (A : Type) : Type :=
| Ok (a : A)
| Err (e : error).
Arguments Ok {A} a.
Arguments Err {A} e.

Abbreviation goerror := (option error).

Fixpoint IsNotFound (e : error) : bool :=
  match e with
  | ErrNotFound => true
  | Errorf_w _ e' => IsNotFound e'
  | _ => false
  end.

Fixpoint IsInvalidArgument (e : error) : bool :=
  match e with
  | ErrInvalidArgument => true
  | Errorf_w _ e' => IsInvalidArgument e'
  | _ => false
  end.

Fixpoint IsAlreadyExists (e : error) : bool :=
  match e with
  | ErrAlreadyExists => true
  | Errorf_w _ e' => IsAlreadyExists e'
  | _ => false
  end.

(** [unwraps e' e]: [e'] is [e] or wraps it through a chain of %w. *)
Inductive unwraps : error -> error -> Prop :=
| unwraps_refl e : unwraps e e
| unwraps_step msg e' e : unwraps e' e -> unwraps (Errorf_w msg e') e.

(** ** Data model (ocispec, images, content) *)

Definition Digest := string.
Definition Time := Z.

Definition emptyDigest : Digest := "".

Definition MediaTypeDockerSchema2LayerGzip : string :=
  "application/vnd.docker.image.rootfs.diff.tar.gzip".
Definition MediaTypeDockerSchema2Config : string :=
  "application/vnd.docker.container.image.v1+json".
Definition MediaTypeDockerSchema2Manifest : string :=
  "application/vnd.docker.distribution.manifest.v2+json".

Record Descriptor := mkDescriptor {
  MediaType : string;
  Digest_ : Digest;
  Size : Z
}.

Definition zeroDescriptor : Descriptor := mkDescriptor "" "" 0.

Record Platform := mkPlatform {
  Architecture : string;
  OS : string;
  OSVersion : string;
  OSFeatures : list string;
  Variant : string
}.

Record ImageConfig := mkImageConfig {
  User : string;
  ExposedPorts : gset string;
  Env : list string;
  Entrypoint : list string;
  Cmd : list string;
  Volumes : gset string;
  WorkingDir : string;
  Labels : gmap string string;
  StopSignal : string;
  ArgsEscaped : bool
}.

Record RootFS := mkRootFS {
  Type_ : string;
  DiffIDs : list Digest
}.

Record History := mkHistory {
  hCreated : option Time;
  hCreatedBy : string;
  hAuthor : string;
  hComment : string;
  EmptyLayer : bool
}.

(** ocispec.Image: the image config. *)
Record Image := mkImage {
  Created : option Time;
  Author : string;
  Platform_ : Platform;
  Config : ImageConfig;
  RootFS_ : RootFS;
  History_ : list History
}.

Record Manifest := mkManifest {
  SchemaVersion : Z;
  mMediaType : string;
  mConfig : Descriptor;
  Layers : list Descriptor
}.

(** The anonymous struct serialised by writeContentsForImage. *)
Record newMfstT := mkNewMfst {
  nmMediaType : string;
  nmManifest : Manifest
}.

(** images.Image: the image record of the image store. *)
Record ImagesImage := mkImagesImage {
  Name : string;
  iLabels : gmap string string;
  Target : Descriptor;
  CreatedAt : Time;
  UpdatedAt : Time
}.

Definition zeroImagesImage : ImagesImage :=
  mkImagesImage "" ∅ zeroDescriptor 0 0.

Record ContentInfo := mkContentInfo {
  ciSize : Z;
  ciLabels : gmap string string
}.

Record Mount := mkMount {
  mntType : string;
  mntSource : string;
  mntOptions : list string
}.

Record GlobalCommandOptions := mkGOptions {
  Namespace : string;
  Snapshotter : string;
  Experimental : bool
}.

(** types.ImageSquashOptions *)
Record ImageSquashOptions := mkOptions {
  GOptions : GlobalCommandOptions;
  oAuthor : string;
  oMessage : string;
  SourceImageRef : string;
  TargetImageName : string;
  SquashLayerCount : Z;
  SquashLayerDigest : string
}.

Record squashImage := mkSquashImage {
  ClientImage : ImagesImage;
  siConfig : Image;
  siImage : ImagesImage;
  siManifest : Manifest
}.

(** ** Library functions the code calls

    The pure functions of the Go standard library and of go-digest that
    the code calls but whose sources are not part of the repository. *)
Class GoLibs := {
  strings_TrimSpace : string -> string;
  digest_Parse : string -> result Digest;
  digest_FromBytes : string -> Digest;
  json_Marshal : Image -> result string;
  json_MarshalIndent : newMfstT -> result string;
  runtime_GOARCH : string;
  runtime_GOOS : string
}.

(** identity.ChainID: the chain identity of an ordered diffID sequence. *)
Fixpoint ChainID_from `{GoLibs} (parent : Digest) (ds : list Digest) : Digest :=
  match ds with
  | [] => parent
  | d :: rest => ChainID_from (digest_FromBytes (parent +:+ " " +:+ d)) rest
  end.

Definition ChainID `{GoLibs} (ds : list Digest) : Digest :=
  match ds with
  | [] => ""
  | d :: rest => ChainID_from d rest
  end.

(** Go slicing [s[:n]]; [None] is the run-time panic. *)
Definition slice_to {A} (s : list A) (n : Z) : option (list A) :=
  if (0 <=? n) && (n <=? Z.of_nat (length s))
  then Some (take (Z.to_nat n) s) else None.

Definition len {A} (s : list A) : Z := Z.of_nat (length s).

(** ** Collaborator calls and the program monad *)

Inductive Event : Type :=
| ImageStore_Get (name : string)
| ImageStore_Update (img : ImagesImage)
| ImageStore_Create (img : ImagesImage)
| Imgutil_ReadManifest (img : ImagesImage)
| Imgutil_ReadImageConfig (img : ImagesImage)
| Differ_Apply (layer : Descriptor) (m : list Mount)
| Rootfs_CreateDiff (snapshotName : string)
| Content_Info (dgst : Digest)
| Content_WriteBlob (ref : string) (data : string) (desc : Descriptor)
    (labels : gmap string string)
| Snap_Prepare (key parent : string)
| Snap_Commit (name key : string)
| Snap_Remove (key : string)
| Client_WithLease
| Lease_Done
| Image_Unpack (img : ImagesImage) (snapshotter : string)
| Time_Now
| Rand_Read3.

(** The type of the response to each call. ImageStore_Update keeps the
    pair: createSquashImage returns its value also when it failed. *)
Definition resp (e : Event) : Type :=
  match e with
  | ImageStore_Get _ => result ImagesImage
  | ImageStore_Update _ => (ImagesImage * goerror)%type
  | ImageStore_Create _ => result ImagesImage
  | Imgutil_ReadManifest _ => result Manifest
  | Imgutil_ReadImageConfig _ => result Image
  | Differ_Apply _ _ => result Descriptor
  | Rootfs_CreateDiff _ => result Descriptor
  | Content_Info _ => result ContentInfo
  | Content_WriteBlob _ _ _ _ => goerror
  | Snap_Prepare _ _ => result (list Mount)
  | Snap_Commit _ _ => goerror
  | Snap_Remove _ => goerror
  | Client_WithLease => goerror
  | Lease_Done => goerror
  | Image_Unpack _ _ => goerror
  | Time_Now => Time
  | Rand_Read3 => (Byte.byte * Byte.byte * Byte.byte)%type
  end.

Inductive Prog (A : Type) : Type :=
| Ret (a : A)
| Panic (msg : string)
| Call (e : Event) (k : resp e -> Prog A).
Arguments Ret {A} a.
Arguments Panic {A} msg.
Arguments Call {A} e k.

Fixpoint bind {A B} (p : Prog A) (f : A -> Prog B) : Prog B :=
  match p with
  | Ret a => f a
  | Panic msg => Panic msg
  | Call e k => Call e (fun x => bind (k x) f)
  end.

Definition call (e : Event) : Prog (resp e) := Call e Ret.

Notation "x <- p ;; q" := (bind p (fun x => q))
  (at level 20, p at level 99, q at level 200, only parsing).
Notation "' pat <- p ;; q" := (bind p (fun x => match x with pat => q end))
  (at level 20, pat pattern, p at level 99, q at level 200, only parsing).

(** [defer d p]: [p] with the deferred function [d] run when [p] returns
    (with the results, [Some]) or panics ([None]). *)
Fixpoint defer {A} (d : option A -> Prog unit) (p : Prog A) : Prog A :=
  match p with
  | Ret a => _ <- d (Some a) ;; Ret a
  | Panic msg => _ <- d None ;; Panic msg
  | Call e k => Call e (fun x => defer d (k x))
  end.

(** Runs: a handler answers each call from its state. *)
Definition handler (S : Type) : Type := forall e : Event, S -> resp e * S.

Record Entry := Ent { ent_event : Event; ent_resp : resp ent_event }.

Inductive outcome (A : Type) : Type :=
| Returned (a : A)
| Panicked (msg : string).
Arguments Returned {A} a.
Arguments Panicked {A} msg.

Fixpoint run {S A} (h : handler S) (p : Prog A) (s : S)
  : outcome A * S * list Entry :=
  match p with
  | Ret a => (Returned a, s, [])
  | Panic msg => (Panicked msg, s, [])
  | Call e k =>
      let xs := h e s in
      let r := run h (k (fst xs)) (snd xs) in
      (fst (fst r), snd (fst r), Ent e (fst xs) :: snd r)
  end.

Definition out_of {S A} (h : handler S) (p : Prog A) (s : S) : outcome A :=
  fst (fst (run h p s)).
Definition trace_of {S A} (h : handler S) (p : Prog A) (s : S) : list Entry :=
  snd (run h p s).

(** ** The squash runtime (squash.go)

    The receiver [sr] of the Go methods contributes its options [opt]; its
    client and stores are the collaborators behind the events. *)
Section Squash.
Context `{GoLibs}.
Variable opt : ImageSquashOptions.

(** initImage *)
Definition initImage : Prog (squashImage * goerror) :=
  r <- call (ImageStore_Get (SourceImageRef opt)) ;;
  match r with
  | Err err => Ret (mkSquashImage zeroImagesImage
                      (mkImage None "" (mkPlatform "" "" "" [] "")
                         (mkImageConfig "" ∅ [] [] [] ∅ "" ∅ "" false)
                         (mkRootFS "" []) [])
                      zeroImagesImage (mkManifest 0 "" zeroDescriptor []),
                    Some err)
  | Ok containerImage =>
    let clientImage := containerImage in
    r <- call (Imgutil_ReadManifest clientImage) ;;
    match r with
    | Err err => Ret (mkSquashImage zeroImagesImage
                        (mkImage None "" (mkPlatform "" "" "" [] "")
                           (mkImageConfig "" ∅ [] [] [] ∅ "" ∅ "" false)
                           (mkRootFS "" []) [])
                        zeroImagesImage (mkManifest 0 "" zeroDescriptor []),
                      Some err)
    | Ok manifest =>
      r <- call (Imgutil_ReadImageConfig clientImage) ;;
      match r with
      | Err err => Ret (mkSquashImage zeroImagesImage
                          (mkImage None "" (mkPlatform "" "" "" [] "")
                             (mkImageConfig "" ∅ [] [] [] ∅ "" ∅ "" false)
                             (mkRootFS "" []) [])
                          zeroImagesImage (mkManifest 0 "" zeroDescriptor []),
                        Some err)
      | Ok config =>
        Ret (mkSquashImage clientImage config containerImage manifest, None)
      end
    end
  end.

(** The loop of generateSquashLayer over the manifest's layers, on the
    loop variables [find] and [res]. *)
Fixpoint generateSquashLayer_loop (layers : list Descriptor)
    (find : bool) (res : list Descriptor) : bool * list Descriptor :=
  match layers with
  | [] => (find, res)
  | layer :: rest =>
      let find := if decide (Digest_ layer = SquashLayerDigest opt)
                  then true else find in
      let res := if find then res ++ [layer] else res in
      generateSquashLayer_loop rest find res
  end.

Definition generateSquashLayer (image : squashImage)
  : result (list Descriptor) :=
  let layers := Layers (siManifest image) in
  if decide (SquashLayerDigest opt <> "") then
    let '(find, res) := generateSquashLayer_loop layers false [] in
    if negb find then
      Err (Errorf_w ("layer digest " +:+ SquashLayerDigest opt
                       +:+ " not found in the image") ErrNotFound)
    else Ok res
  else if (1 <? SquashLayerCount opt) && (SquashLayerCount opt <=? len layers)
  then
    (* the guard keeps the index within bounds: the slicing cannot panic *)
    Ok (drop (Z.to_nat (len layers - SquashLayerCount opt)) layers)
  else Err (Errorf_w "invalid squash option" ErrInvalidArgument).

(** applyLayersToSnapshot *)
Fixpoint applyLayersToSnapshot (mount : list Mount) (layers : list Descriptor)
  : Prog goerror :=
  match layers with
  | [] => Ret None
  | layer :: rest =>
      r <- call (Differ_Apply layer mount) ;;
      match r with
      | Err err => Ret (Some err)
      | Ok _ => applyLayersToSnapshot mount rest
      end
  end.

(** createDiff *)
Definition createDiff (snapshotName : string)
  : Prog (Descriptor * Digest * goerror) :=
  r <- call (Rootfs_CreateDiff snapshotName) ;;
  match r with
  | Err err => Ret (zeroDescriptor, "", Some err)
  | Ok newDesc =>
    r <- call (Content_Info (Digest_ newDesc)) ;;
    match r with
    | Err err => Ret (zeroDescriptor, "", Some err)
    | Ok info =>
      match ciLabels info !! "containerd.io/uncompressed" with
      | None =>
          Ret (zeroDescriptor, "",
               Some (errors_New "invalid differ response with no diffID"))
      | Some diffIDStr =>
        match digest_Parse diffIDStr with
        | Err err => Ret (zeroDescriptor, "", Some err)
        | Ok diffID =>
            Ret (mkDescriptor MediaTypeDockerSchema2LayerGzip
                   (Digest_ newDesc) (ciSize info), diffID, None)
        end
      end
    end
  end.

(** The loop of generateBaseImageConfig over the original history, on the
    loop variables [history] and [count]; the [break] returns [history]. *)
Fixpoint generateBaseImageConfig_loop (hs : list History)
    (remainingLayerCount : Z) (history : list History) (count : Z)
  : list History :=
  match hs with
  | [] => history
  | h :: rest =>
      if EmptyLayer h then
        generateBaseImageConfig_loop rest remainingLayerCount
          (history ++ [h]) count
      else if count + 1 <=? remainingLayerCount then
        generateBaseImageConfig_loop rest remainingLayerCount
          (history ++ [h]) (count + 1)
      else history
  end.

Definition generateBaseImageConfig (image : squashImage)
    (remainingLayerCount : Z) : Prog (result Image) :=
  r <- call (Imgutil_ReadImageConfig (ClientImage image)) ;;
  match r with
  | Err err => Ret (Err err)
  | Ok orginalConfig =>
    let history :=
      generateBaseImageConfig_loop (History_ orginalConfig)
        remainingLayerCount [] 0 in
    cTime <- call Time_Now ;;
    match slice_to (DiffIDs (RootFS_ orginalConfig)) remainingLayerCount with
    | None => Panic "slice bounds out of range"
    | Some diffIDs =>
        Ret (Ok (mkImage (Some cTime) (Author orginalConfig)
                   (Platform_ orginalConfig) (Config orginalConfig)
                   (mkRootFS (Type_ (RootFS_ orginalConfig)) diffIDs)
                   history))
    end
  end.

(** The label loop of writeContentsForImage: [i] is the range index. *)
Fixpoint gcLabels_loop (i : nat) (layers : list Descriptor)
    (labels : gmap string string) : gmap string string :=
  match layers with
  | [] => labels
  | l :: rest =>
      gcLabels_loop (S i) rest
        (<[ "containerd.io/gc.ref.content." +:+ pretty (i + 1)%nat
            := Digest_ l ]> labels)
  end.

(** writeContentsForImage *)
Definition writeContentsForImage (snName : string) (newConfig : Image)
    (baseImageLayers : list Descriptor) (diffLayerDesc : Descriptor)
  : Prog (result (Descriptor * Digest)) :=
  match json_Marshal newConfig with
  | Err err => Ret (Err err)
  | Ok newConfigJSON =>
    let configDesc :=
      mkDescriptor MediaTypeDockerSchema2Config
        (digest_FromBytes newConfigJSON)
        (Z.of_nat (String.length newConfigJSON)) in
    let layers := baseImageLayers ++ [diffLayerDesc] in
    let newMfst :=
      mkNewMfst MediaTypeDockerSchema2Manifest
        (mkManifest 2 "" configDesc layers) in
    match json_MarshalIndent newMfst with
    | Err err => Ret (Err err)
    | Ok newMfstJSON =>
      let newMfstDesc :=
        mkDescriptor MediaTypeDockerSchema2Manifest
          (digest_FromBytes newMfstJSON)
          (Z.of_nat (String.length newMfstJSON)) in
      let labels :=
        gcLabels_loop 0 layers
          {[ "containerd.io/gc.ref.content.0" := Digest_ configDesc ]} in
      err <- call (Content_WriteBlob (Digest_ newMfstDesc) newMfstJSON
                     newMfstDesc labels) ;;
      match err with
      | Some err => Ret (Err err)
      | None =>
        let labelOpt : gmap string string :=
          {[ "containerd.io/gc.ref.snapshot." +:+ snName
             := ChainID (DiffIDs (RootFS_ newConfig)) ]} in
        err <- call (Content_WriteBlob (Digest_ configDesc) newConfigJSON
                       configDesc labelOpt) ;;
        match err with
        | Some err => Ret (Err err)
        | None => Ret (Ok (newMfstDesc, Digest_ configDesc))
        end
      end
    end
  end.

(** createSquashImage: the value returned is always the one Update gave. *)
Definition createSquashImage (img : ImagesImage)
  : Prog (ImagesImage * goerror) :=
  '(newImg, err) <- call (ImageStore_Update img) ;;
  match err with
  | Some err =>
    if negb (IsNotFound err) then
      Ret (newImg,
           Some (Errorf_w ("failed to update new squashImage " +:+ Name img)
                   err))
    else
      r <- call (ImageStore_Create img) ;;
      match r with
      | Err err =>
          Ret (newImg,
               Some (Errorf_w
                       ("failed to create new squashImage " +:+ Name img) err))
      | Ok _ => Ret (newImg, None)
      end
  | None => Ret (newImg, None)
  end.

(** generateCommitImageConfig *)
Definition generateCommitImageConfig (baseConfig : Image) (diffID : Digest)
  : Prog (result Image) :=
  createdTime <- call Time_Now ;;
  let arch := Architecture (Platform_ baseConfig) in
  let arch := if decide (arch = "") then runtime_GOARCH else arch in
  let os := OS (Platform_ baseConfig) in
  let os := if decide (os = "") then runtime_GOOS else os in
  let author := strings_TrimSpace (oAuthor opt) in
  let author := if decide (author = "") then Author baseConfig else author in
  let comment := strings_TrimSpace (oMessage opt) in
  Ret (Ok (mkImage (Some createdTime) author
             (mkPlatform arch os "" [] "")
             (Config baseConfig)
             (mkRootFS "layers" (DiffIDs (RootFS_ baseConfig) ++ [diffID]))
             (History_ baseConfig ++
                [mkHistory (Some createdTime) "" author comment false]))).

(** base64.URLEncoding.EncodeToString on the three bytes of uniquePart. *)
Definition encodeURL : string :=
  "ABCDEFGHIJKLMNOPQRSTUVWXYZabcdefghijklmnopqrstuvwxyz0123456789-_".

Definition base64_char (i : N) : ascii :=
  default "A"%char (String.get (N.to_nat i) encodeURL).

Definition base64_URLEncoding_EncodeToString
    (b : Byte.byte * Byte.byte * Byte.byte) : string :=
  let '(b0, b1, b2) := b in
  let n := (Byte.to_N b0 * 65536 + Byte.to_N b1 * 256 + Byte.to_N b2)%N in
  String (base64_char (n / 262144))
    (String (base64_char ((n / 4096) mod 64))
       (String (base64_char ((n / 64) mod 64))
          (String (base64_char (n mod 64)) ""))).

(** time.Time.Nanosecond, on a time in nanoseconds. *)
Definition Nanosecond (t : Time) : Z := t mod 1000000000.

(** uniquePart *)
Definition uniquePart : Prog string :=
  t <- call Time_Now ;;
  b <- call Rand_Read3 ;;
  Ret (pretty (Nanosecond t) +:+ "-" +:+ base64_URLEncoding_EncodeToString b).

(** applyDiffLayer: the four named results are returned as they stand at
    each return statement; the deferred function removes the scratch
    snapshot when the returned error is not nil. *)
Definition applyDiffLayer (baseImg : Image) (layers : list Descriptor)
  : Prog (Descriptor * Digest * string * goerror) :=
  key <- uniquePart ;;
  let parent := ChainID (DiffIDs (RootFS_ baseImg)) in
  r <- call (Snap_Prepare key parent) ;;
  match r with
  | Err err => Ret (zeroDescriptor, "", "", Some err)
  | Ok m =>
    defer
      (fun results =>
         match results with
         | Some (_, _, _, Some _) => _ <- call (Snap_Remove key) ;; Ret tt
         | _ => Ret tt
         end)
      (err <- applyLayersToSnapshot m layers ;;
       match err with
       | Some err => Ret (zeroDescriptor, "", "", Some err)
       | None =>
         '(diffLayerDesc, diffID, err) <- createDiff key ;;
         match err with
         | Some err =>
             Ret (diffLayerDesc, diffID, "",
                  Some (Errorf_w "failed to export layer" err))
         | None =>
           let snapshotID :=
             ChainID (DiffIDs (RootFS_ baseImg) ++ [diffID]) in
           err <- call (Snap_Commit snapshotID key) ;;
           match err with
           | Some err =>
               if IsAlreadyExists err
               then Ret (diffLayerDesc, diffID, snapshotID, None)
               else Ret (diffLayerDesc, diffID, snapshotID, Some err)
           | None => Ret (diffLayerDesc, diffID, snapshotID, None)
           end
         end
       end)
  end.

(** Squash: the pipeline. The lease is released by a deferred call. *)
Definition Squash : Prog goerror :=
  '(image, err) <- initImage ;;
  match err with
  | Some err => Ret (Some err)
  | None =>
  match generateSquashLayer image with
  | Err err => Ret (Some err)
  | Ok sLayers =>
  let remainingLayerCount := len (Layers (siManifest image)) - len sLayers in
  err <- call Client_WithLease ;;
  match err with
  | Some err => Ret (Some (Errorf_w "failed to create lease for squash" err))
  | None =>
  defer (fun _ => _ <- call Lease_Done ;; Ret tt)
    (r <- generateBaseImageConfig image remainingLayerCount ;;
     match r with
     | Err err => Ret (Some err)
     | Ok baseImage =>
     '(diffLayerDesc, diffID, _, err) <- applyDiffLayer baseImage sLayers ;;
     match err with
     | Some err => Ret (Some err)
     | None =>
     r <- generateCommitImageConfig baseImage diffID ;;
     match r with
     | Err err =>
         Ret (Some (Errorf_w "failed to generate commit image config" err))
     | Ok imageConfig =>
     match slice_to (Layers (siManifest image)) remainingLayerCount with
     | None => Panic "slice bounds out of range"
     | Some baseImageLayers =>
     r <- writeContentsForImage (Snapshotter (GOptions opt)) imageConfig
            baseImageLayers diffLayerDesc ;;
     match r with
     | Err err => Ret (Some err)
     | Ok (commitManifestDesc, _) =>
     now <- call Time_Now ;;
     let nimg :=
       mkImagesImage (TargetImageName opt) ∅ commitManifestDesc 0 now in
     '(_, err) <- createSquashImage nimg ;;
     match err with
     | Some err => Ret (Some err)
     | None =>
     let cimg := nimg in
     err <- call (Image_Unpack cimg (Snapshotter (GOptions opt))) ;;
     match err with
     | Some err => Ret (Some err)
     | None => Ret None
     end end end end end end end)
  end end end.

End Squash.

Definition state_of {S A} (h : handler S) (p : Prog A) (s : S) : S :=
  snd (fst (run h p s)).

(** The argument the deferred function sees. *)
Definition deferred_arg {A} (o : outcome A) : option A :=
  match o with Returned a => Some a | Panicked _ => None end.

(** The entries of a history that stand for a layer, and those that do
    not. *)
Definition nonEmptyLayers (hs : list History) : list History :=
  filter (fun x => EmptyLayer x = false) hs.
Definition emptyLayers (hs : list History) : list History :=
  filter (fun x => EmptyLayer x = true) hs.

(** The invariant of an image config: the history has one non-empty-layer
    entry for each diffID. *)
Definition history_matches_layers (cfg : Image) : Prop :=
  len (nonEmptyLayers (History_ cfg)) = len (DiffIDs (RootFS_ cfg)).

(** ** Observations on traces *)

(** The collaborator a call goes to. *)
Inductive Kind : Type :=
| KRead       (* image store Get, imgutil readers *)
| KLease      (* lease acquisition *)
| KRelease    (* lease release *)
| KClock      (* clock and random source *)
| KSnap       (* snapshotter *)
| KApply      (* diff service Apply *)
| KDiff       (* rootfs.CreateDiff and content store Info *)
| KBlob       (* content store WriteBlob *)
| KImage      (* image store Update and Create *)
| KUnpack.

Global Instance Kind_eq_dec : EqDecision Kind.
Proof. solve_decision. Defined.

Definition kind (e : Event) : Kind :=
  match e with
  | ImageStore_Get _ | Imgutil_ReadManifest _ | Imgutil_ReadImageConfig _ =>
      KRead
  | ImageStore_Update _ | ImageStore_Create _ => KImage
  | Differ_Apply _ _ => KApply
  | Rootfs_CreateDiff _ | Content_Info _ => KDiff
  | Content_WriteBlob _ _ _ _ => KBlob
  | Snap_Prepare _ _ | Snap_Commit _ _ | Snap_Remove _ => KSnap
  | Client_WithLease => KLease
  | Lease_Done => KRelease
  | Image_Unpack _ _ => KUnpack
  | Time_Now | Rand_Read3 => KClock
  end.

(** [only ks tr]: every call of [tr] goes to a collaborator of [ks]. *)
Definition only (ks : list Kind) (tr : list Entry) : Prop :=
  Forall (fun x => bool_decide (kind (ent_event x) ∈ ks) = true) tr.

Definition is_image_write (x : Entry) : bool :=
  bool_decide (kind (ent_event x) = KImage).
Definition is_blob_write (x : Entry) : bool :=
  bool_decide (kind (ent_event x) = KBlob).

Definition result_error {A} (r : result A) : goerror :=
  match r with Ok _ => None | Err e => Some e end.

(** The error of a failed call of a stage that precedes the image-record
    upsert. A failed Snap_Remove is the cleanup the code logs and ignores,
    and a Snap_Commit that fails with AlreadyExists counts as a success;
    the upsert itself, the unpack and the lease release come later. *)
Definition entry_error (x : Entry) : goerror :=
  match x with
  | Ent (ImageStore_Get _) r => result_error r
  | Ent (Imgutil_ReadManifest _) r => result_error r
  | Ent (Imgutil_ReadImageConfig _) r => result_error r
  | Ent (Differ_Apply _ _) r => result_error r
  | Ent (Rootfs_CreateDiff _) r => result_error r
  | Ent (Content_Info _) r => result_error r
  | Ent (Snap_Prepare _ _) r => result_error r
  | Ent (Content_WriteBlob _ _ _ _) r => r
  | Ent Client_WithLease r => r
  | Ent (Snap_Commit _ _) r =>
      match r with
      | Some e => if IsAlreadyExists e then None else Some e
      | None => None
      end
  | _ => None
  end.

Definition quiet (tr : list Entry) : Prop :=
  Forall (fun x => entry_error x = None) tr.

(** The answer recorded for a snapshot commit. *)
Definition commit_answer (x : Entry) : option goerror :=
  match x with
  | Ent e r =>
      match e as e0 return resp e0 -> option goerror with
      | Snap_Commit _ _ => fun r => Some r
      | _ => fun _ => None
      end r
  end.

(** The answer recorded for a content store Info call. *)
Definition info_answer (x : Entry) : option (result ContentInfo) :=
  match x with
  | Ent e r =>
      match e as e0 return resp e0 -> option (result ContentInfo) with
      | Content_Info _ => fun r => Some r
      | _ => fun _ => None
      end r
  end.


(** [with_commit c h]: the handler [h] with every snapshot commit
    answered by [c]. *)
Definition with_commit {S} (c : goerror) (h : handler S) : handler S :=
  fun e =>
    match e as e0 return S -> resp e0 * S with
    | Snap_Commit _ _ => fun s => (c, s)
    | e0 => h e0
    end.

(** [fails_with err tr]: the failed stage calls of [tr] are accounted for by
    the returned error [err]: none failed when [err] is nil, and otherwise
    [err] is the error of each failed call, possibly wrapped. *)
Definition accounted (err : goerror) (x : Entry) : Prop :=
  match entry_error x, err with
  | None, _ => True
  | Some e, Some e' => unwraps e' e
  | Some _, None => False
  end.

Definition fails_with (err : goerror) (tr : list Entry) : Prop :=
  Forall (accounted err) tr.

Definition no_image_write (tr : list Entry) : Prop :=
  Forall (fun x => is_image_write x = false) tr.
Definition no_blob_write (tr : list Entry) : Prop :=
  Forall (fun x => is_blob_write x = false) tr.

(** A differ answer whose uncompressed-digest label is missing or does not
    parse. *)
Definition bad_diffID_label `{GoLibs} (info : ContentInfo) : Prop :=
  match ciLabels info !! "containerd.io/uncompressed" with
  | None => True
  | Some diffIDStr => exists e, digest_Parse diffIDStr = Err e
  end.

(** What a run of the pipeline with outcome [out] and trace [tr] owes to a
    failure before the image-record upsert: a failed stage call makes the
    pipeline return its error with no image-record write; a failed Apply
    makes it return that very error after an attempt to remove the scratch
    snapshot, with no blob written either; a differ answer without a usable
    diffID makes it return the export error. *)
Definition aborts_cleanly `{GoLibs} (out : outcome goerror) (tr : list Entry)
  : Prop :=
  (forall x e,
     In x tr -> entry_error x = Some e ->
     (exists e', out = Returned (Some e') /\ unwraps e' e) /\
     no_image_write tr) /\
  (forall layer m e,
     In (Ent (Differ_Apply layer m) (Err e)) tr ->
     out = Returned (Some e) /\
     (exists key parent r,
        In (Ent (Snap_Prepare key parent) (Ok m)) tr /\
        In (Ent (Snap_Remove key) r) tr) /\
     no_blob_write tr /\ no_image_write tr) /\
  (forall dgst info,
     In (Ent (Content_Info dgst) (Ok info)) tr ->
     bad_diffID_label info ->
     (exists e, out = Returned (Some (Errorf_w "failed to export layer" e))) /\
     no_image_write tr).

(** ** The runs of the snapshot differ, call by call

    The results and the traces that applyLayersToSnapshot, createDiff and
    applyDiffLayer can produce, one constructor for each return statement
    of the code. *)

Inductive apply_runs (m : list Mount)
  : list Descriptor -> goerror -> list Entry -> Prop :=
| apply_runs_done : apply_runs m [] None []
| apply_runs_fail layer rest e :
    apply_runs m (layer :: rest) (Some e) [Ent (Differ_Apply layer m) (Err e)]
| apply_runs_next layer rest d err tr :
    apply_runs m rest err tr ->
    apply_runs m (layer :: rest) err (Ent (Differ_Apply layer m) (Ok d) :: tr).

Inductive createDiff_runs `{GoLibs} (snapshotName : string)
  : Descriptor * Digest * goerror -> list Entry -> Prop :=
| createDiff_runs_diff_fails e :
    createDiff_runs snapshotName (zeroDescriptor, "", Some e)
      [Ent (Rootfs_CreateDiff snapshotName) (Err e)]
| createDiff_runs_info_fails newDesc e :
    createDiff_runs snapshotName (zeroDescriptor, "", Some e)
      [Ent (Rootfs_CreateDiff snapshotName) (Ok newDesc);
       Ent (Content_Info (Digest_ newDesc)) (Err e)]
| createDiff_runs_no_label newDesc info :
    ciLabels info !! "containerd.io/uncompressed" = None ->
    createDiff_runs snapshotName
      (zeroDescriptor, "",
       Some (errors_New "invalid differ response with no diffID"))
      [Ent (Rootfs_CreateDiff snapshotName) (Ok newDesc);
       Ent (Content_Info (Digest_ newDesc)) (Ok info)]
| createDiff_runs_bad_label newDesc info diffIDStr e :
    ciLabels info !! "containerd.io/uncompressed" = Some diffIDStr ->
    digest_Parse diffIDStr = Err e ->
    createDiff_runs snapshotName (zeroDescriptor, "", Some e)
      [Ent (Rootfs_CreateDiff snapshotName) (Ok newDesc);
       Ent (Content_Info (Digest_ newDesc)) (Ok info)]
| createDiff_runs_ok newDesc info diffIDStr diffID :
    ciLabels info !! "containerd.io/uncompressed" = Some diffIDStr ->
    digest_Parse diffIDStr = Ok diffID ->
    createDiff_runs snapshotName
      (mkDescriptor MediaTypeDockerSchema2LayerGzip (Digest_ newDesc)
         (ciSize info), diffID, None)
      [Ent (Rootfs_CreateDiff snapshotName) (Ok newDesc);
       Ent (Content_Info (Digest_ newDesc)) (Ok info)].

(** What applyDiffLayer returns for each answer to the commit. *)
Definition commit_error (cerr : goerror) : goerror :=
  match cerr with
  | Some e => if IsAlreadyExists e then None else Some e
  | None => None
  end.

(** The cleanup calls of the deferred function. *)
Definition cleanup_trace (key : string) (retErr : goerror) (r : goerror)
  : list Entry :=
  match retErr with
  | Some _ => [Ent (Snap_Remove key) r]
  | None => []
  end.

Inductive applyDiffLayer_runs `{GoLibs} (baseImg : Image)
    (layers : list Descriptor)
  : Descriptor * Digest * string * goerror -> list Entry -> Prop :=
| applyDiffLayer_runs_prepare_fails t b e :
    let key := pretty (Nanosecond t) +:+ "-"
               +:+ base64_URLEncoding_EncodeToString b in
    applyDiffLayer_runs baseImg layers (zeroDescriptor, "", "", Some e)
      [Ent Time_Now t; Ent Rand_Read3 b;
       Ent (Snap_Prepare key (ChainID (DiffIDs (RootFS_ baseImg)))) (Err e)]
| applyDiffLayer_runs_apply_fails t b m e atr r :
    let key := pretty (Nanosecond t) +:+ "-"
               +:+ base64_URLEncoding_EncodeToString b in
    apply_runs m layers (Some e) atr ->
    applyDiffLayer_runs baseImg layers (zeroDescriptor, "", "", Some e)
      ([Ent Time_Now t; Ent Rand_Read3 b;
        Ent (Snap_Prepare key (ChainID (DiffIDs (RootFS_ baseImg)))) (Ok m)]
       ++ atr ++ [Ent (Snap_Remove key) r])
| applyDiffLayer_runs_diff_fails t b m atr d id e dtr r :
    let key := pretty (Nanosecond t) +:+ "-"
               +:+ base64_URLEncoding_EncodeToString b in
    apply_runs m layers None atr ->
    createDiff_runs key (d, id, Some e) dtr ->
    applyDiffLayer_runs baseImg layers
      (d, id, "", Some (Errorf_w "failed to export layer" e))
      ([Ent Time_Now t; Ent Rand_Read3 b;
        Ent (Snap_Prepare key (ChainID (DiffIDs (RootFS_ baseImg)))) (Ok m)]
       ++ atr ++ dtr ++ [Ent (Snap_Remove key) r])
| applyDiffLayer_runs_commit t b m atr d id dtr cerr r :
    let key := pretty (Nanosecond t) +:+ "-"
               +:+ base64_URLEncoding_EncodeToString b in
    let snapshotID := ChainID (DiffIDs (RootFS_ baseImg) ++ [id]) in
    apply_runs m layers None atr ->
    createDiff_runs key (d, id, None) dtr ->
    applyDiffLayer_runs baseImg layers
      (d, id, snapshotID, commit_error cerr)
      ([Ent Time_Now t; Ent Rand_Read3 b;
        Ent (Snap_Prepare key (ChainID (DiffIDs (RootFS_ baseImg)))) (Ok m)]
       ++ atr ++ dtr ++ [Ent (Snap_Commit snapshotID key) cerr]
       ++ cleanup_trace key (commit_error cerr) r).

(** A call that removes a snapshot. *)
Definition is_remove (x : Entry) : bool :=
  match ent_event x with
  | Snap_Remove _ => true
  | _ => false
  end.

(** A call that releases the lease. *)
Definition is_release (x : Entry) : bool :=
  match ent_event x with
  | Lease_Done => true
  | _ => false
  end.

(** ** The runs of the other stages and of the pipeline, call by call

    As for the snapshot differ: the results and the traces that each
    function can produce, one constructor for each return statement (or
    panic) of the code. *)

Inductive initImage_runs (opt : ImageSquashOptions)
  : squashImage * goerror -> list Entry -> Prop :=
| initImage_runs_get_fails image e :
    initImage_runs opt (image, Some e)
      [Ent (ImageStore_Get (SourceImageRef opt)) (Err e)]
| initImage_runs_manifest_fails image img e :
    initImage_runs opt (image, Some e)
      [Ent (ImageStore_Get (SourceImageRef opt)) (Ok img);
       Ent (Imgutil_ReadManifest img) (Err e)]
| initImage_runs_config_fails image img manifest e :
    initImage_runs opt (image, Some e)
      [Ent (ImageStore_Get (SourceImageRef opt)) (Ok img);
       Ent (Imgutil_ReadManifest img) (Ok manifest);
       Ent (Imgutil_ReadImageConfig img) (Err e)]
| initImage_runs_ok img manifest config :
    initImage_runs opt (mkSquashImage img config img manifest, None)
      [Ent (ImageStore_Get (SourceImageRef opt)) (Ok img);
       Ent (Imgutil_ReadManifest img) (Ok manifest);
       Ent (Imgutil_ReadImageConfig img) (Ok config)].

Inductive generateBaseImageConfig_runs (image : squashImage) (remaining : Z)
  : outcome (result Image) -> list Entry -> Prop :=
| generateBaseImageConfig_runs_read_fails e :
    generateBaseImageConfig_runs image remaining (Returned (Err e))
      [Ent (Imgutil_ReadImageConfig (ClientImage image)) (Err e)]
| generateBaseImageConfig_runs_panics orig t :
    ~ (0 <= remaining <= len (DiffIDs (RootFS_ orig))) ->
    generateBaseImageConfig_runs image remaining
      (Panicked "slice bounds out of range")
      [Ent (Imgutil_ReadImageConfig (ClientImage image)) (Ok orig);
       Ent Time_Now t]
| generateBaseImageConfig_runs_ok orig t :
    0 <= remaining <= len (DiffIDs (RootFS_ orig)) ->
    generateBaseImageConfig_runs image remaining
      (Returned
         (Ok (mkImage (Some t) (Author orig) (Platform_ orig) (Config orig)
                (mkRootFS (Type_ (RootFS_ orig))
                   (take (Z.to_nat remaining) (DiffIDs (RootFS_ orig))))
                (generateBaseImageConfig_loop (History_ orig) remaining
                   [] 0))))
      [Ent (Imgutil_ReadImageConfig (ClientImage image)) (Ok orig);
       Ent Time_Now t].

Inductive writeContentsForImage_runs `{GoLibs} (snName : string)
    (newConfig : Image) (baseImageLayers : list Descriptor)
    (diffLayerDesc : Descriptor)
  : result (Descriptor * Digest) -> list Entry -> Prop :=
| writeContentsForImage_runs_config_json_fails e :
    json_Marshal newConfig = Err e ->
    writeContentsForImage_runs snName newConfig baseImageLayers diffLayerDesc
      (Err e) []
| writeContentsForImage_runs_manifest_json_fails newConfigJSON e :
    json_Marshal newConfig = Ok newConfigJSON ->
    json_MarshalIndent
      (mkNewMfst MediaTypeDockerSchema2Manifest
         (mkManifest 2 ""
            (mkDescriptor MediaTypeDockerSchema2Config
               (digest_FromBytes newConfigJSON)
               (Z.of_nat (String.length newConfigJSON)))
            (baseImageLayers ++ [diffLayerDesc]))) = Err e ->
    writeContentsForImage_runs snName newConfig baseImageLayers diffLayerDesc
      (Err e) []
| writeContentsForImage_runs_written newConfigJSON newMfstJSON labels r1 rest
    res :
    let configDesc :=
      mkDescriptor MediaTypeDockerSchema2Config
        (digest_FromBytes newConfigJSON)
        (Z.of_nat (String.length newConfigJSON)) in
    let newMfstDesc :=
      mkDescriptor MediaTypeDockerSchema2Manifest
        (digest_FromBytes newMfstJSON)
        (Z.of_nat (String.length newMfstJSON)) in
    json_Marshal newConfig = Ok newConfigJSON ->
    json_MarshalIndent
      (mkNewMfst MediaTypeDockerSchema2Manifest
         (mkManifest 2 "" configDesc (baseImageLayers ++ [diffLayerDesc])))
    = Ok newMfstJSON ->
    labels
    = gcLabels_loop 0 (baseImageLayers ++ [diffLayerDesc])
        {[ "containerd.io/gc.ref.content.0" := Digest_ configDesc ]} ->
    match r1 with
    | Some e => res = Err e /\ rest = []
    | None =>
        exists r2,
          rest
          = [Ent (Content_WriteBlob (Digest_ configDesc) newConfigJSON
                    configDesc
                    {[ "containerd.io/gc.ref.snapshot." +:+ snName
                       := ChainID (DiffIDs (RootFS_ newConfig)) ]}) r2] /\
          res = match r2 with
                | Some e => Err e
                | None => Ok (newMfstDesc, Digest_ configDesc)
                end
    end ->
    writeContentsForImage_runs snName newConfig baseImageLayers diffLayerDesc
      res
      (Ent (Content_WriteBlob (Digest_ newMfstDesc) newMfstJSON newMfstDesc
              labels) r1 :: rest).

Inductive createSquashImage_runs (img : ImagesImage)
  : ImagesImage * goerror -> list Entry -> Prop :=
| createSquashImage_runs_updated newImg :
    createSquashImage_runs img (newImg, None)
      [Ent (ImageStore_Update img) (newImg, None)]
| createSquashImage_runs_update_fails newImg e :
    IsNotFound e = false ->
    createSquashImage_runs img
      (newImg,
       Some (Errorf_w ("failed to update new squashImage " +:+ Name img) e))
      [Ent (ImageStore_Update img) (newImg, Some e)]
| createSquashImage_runs_created newImg e created :
    IsNotFound e = true ->
    createSquashImage_runs img (newImg, None)
      [Ent (ImageStore_Update img) (newImg, Some e);
       Ent (ImageStore_Create img) (Ok created)]
| createSquashImage_runs_create_fails newImg e e' :
    IsNotFound e = true ->
    createSquashImage_runs img
      (newImg,
       Some (Errorf_w ("failed to create new squashImage " +:+ Name img) e'))
      [Ent (ImageStore_Update img) (newImg, Some e);
       Ent (ImageStore_Create img) (Err e')].

(** The part of Squash that runs under the lease. *)
Inductive Squash_body_runs `{GoLibs} (opt : ImageSquashOptions)
    (image : squashImage) (sLayers : list Descriptor)
  : outcome goerror -> list Entry -> Prop :=
| Squash_body_runs_base_fails e Tb :
    generateBaseImageConfig_runs image
      (len (Layers (siManifest image)) - len sLayers) (Returned (Err e)) Tb ->
    Squash_body_runs opt image sLayers (Returned (Some e)) Tb
| Squash_body_runs_base_panics msg Tb :
    generateBaseImageConfig_runs image
      (len (Layers (siManifest image)) - len sLayers) (Panicked msg) Tb ->
    Squash_body_runs opt image sLayers (Panicked msg) Tb
| Squash_body_runs_diff_fails baseImage Tb d id sid e Ta :
    generateBaseImageConfig_runs image
      (len (Layers (siManifest image)) - len sLayers)
      (Returned (Ok baseImage)) Tb ->
    applyDiffLayer_runs baseImage sLayers (d, id, sid, Some e) Ta ->
    Squash_body_runs opt image sLayers (Returned (Some e)) (Tb ++ Ta)
| Squash_body_runs_write_fails baseImage Tb d id sid Ta imageConfig t
    retained e Tw :
    generateBaseImageConfig_runs image
      (len (Layers (siManifest image)) - len sLayers)
      (Returned (Ok baseImage)) Tb ->
    applyDiffLayer_runs baseImage sLayers (d, id, sid, None) Ta ->
    (exists (S : Type) (h : handler S) (s : S),
       fst (h Time_Now s) = t /\
       out_of h (generateCommitImageConfig opt baseImage id) s
       = Returned (Ok imageConfig)) ->
    Layers (siManifest image) = retained ++ sLayers ->
    writeContentsForImage_runs (Snapshotter (GOptions opt)) imageConfig
      retained d (Err e) Tw ->
    Squash_body_runs opt image sLayers (Returned (Some e))
      (Tb ++ Ta ++ [Ent Time_Now t] ++ Tw)
| Squash_body_runs_written baseImage Tb d id sid Ta imageConfig t retained
    commitManifestDesc configDigest Tw now newImg err Tu tail out :
    let nimg :=
      mkImagesImage (TargetImageName opt) ∅ commitManifestDesc 0 now in
    generateBaseImageConfig_runs image
      (len (Layers (siManifest image)) - len sLayers)
      (Returned (Ok baseImage)) Tb ->
    applyDiffLayer_runs baseImage sLayers (d, id, sid, None) Ta ->
    (exists (S : Type) (h : handler S) (s : S),
       fst (h Time_Now s) = t /\
       out_of h (generateCommitImageConfig opt baseImage id) s
       = Returned (Ok imageConfig)) ->
    Layers (siManifest image) = retained ++ sLayers ->
    writeContentsForImage_runs (Snapshotter (GOptions opt)) imageConfig
      retained d (Ok (commitManifestDesc, configDigest)) Tw ->
    createSquashImage_runs nimg (newImg, err) Tu ->
    match err with
    | Some e => out = Returned (Some e) /\ tail = []
    | None =>
        exists uerr,
          out = Returned uerr /\
          tail = [Ent (Image_Unpack nimg (Snapshotter (GOptions opt))) uerr]
    end ->
    Squash_body_runs opt image sLayers out
      (Tb ++ Ta ++ [Ent Time_Now t] ++ Tw ++ [Ent Time_Now now] ++ Tu ++ tail).

Inductive Squash_runs `{GoLibs} (opt : ImageSquashOptions)
  : outcome goerror -> list Entry -> Prop :=
| Squash_runs_init_fails image e T0 :
    initImage_runs opt (image, Some e) T0 ->
    Squash_runs opt (Returned (Some e)) T0
| Squash_runs_selection_fails image e T0 :
    initImage_runs opt (image, None) T0 ->
    generateSquashLayer opt image = Err e ->
    Squash_runs opt (Returned (Some e)) T0
| Squash_runs_lease_fails image sLayers e T0 :
    initImage_runs opt (image, None) T0 ->
    generateSquashLayer opt image = Ok sLayers ->
    Squash_runs opt
      (Returned (Some (Errorf_w "failed to create lease for squash" e)))
      (T0 ++ [Ent Client_WithLease (Some e)])
| Squash_runs_leased image sLayers T0 out body r :
    initImage_runs opt (image, None) T0 ->
    generateSquashLayer opt image = Ok sLayers ->
    Squash_body_runs opt image sLayers out body ->
    Squash_runs opt out
      (T0 ++ [Ent Client_WithLease None] ++ body ++ [Ent Lease_Done r]).

(** ** A concrete image and collaborators, used in the examples *)

(** The ASCII part of strings.TrimSpace. *)
Fixpoint trimLeft (s : string) : string :=
  match s with
  | String c rest => if Ascii.is_space c then trimLeft rest else s
  | EmptyString => EmptyString
  end.

Definition trimSpace (s : string) : string :=
  String.rev (trimLeft (String.rev (trimLeft s))).

(** Stand-ins for the hash and the serialisers: they keep the input
    readable instead of hashing or printing it. *)
Definition exLibs : GoLibs := {|
  strings_TrimSpace := trimSpace;
  digest_Parse := fun s =>
    if String.prefix "sha256:" s then Ok s
    else Err (errors_New "invalid checksum digest format");
  digest_FromBytes := fun s => "sha256:" +:+ s;
  json_Marshal := fun c => Ok ("config by " +:+ Author c);
  json_MarshalIndent := fun m =>
    Ok ("manifest of " +:+ pretty (length (Layers (nmManifest m))));
  runtime_GOARCH := "amd64";
  runtime_GOOS := "linux"
|}.

Definition layerA : Descriptor :=
  mkDescriptor MediaTypeDockerSchema2LayerGzip "sha256:a" 10.
Definition layerB : Descriptor :=
  mkDescriptor MediaTypeDockerSchema2LayerGzip "sha256:b" 20.
Definition layerC : Descriptor :=
  mkDescriptor MediaTypeDockerSchema2LayerGzip "sha256:c" 30.

Definition exManifestOf (layers : list Descriptor) : Manifest :=
  mkManifest 2 MediaTypeDockerSchema2Manifest
    (mkDescriptor MediaTypeDockerSchema2Config "sha256:config" 100) layers.

Definition exStep (createdBy : string) (empty : bool) : History :=
  mkHistory (Some 0) createdBy "alice" "" empty.

(** Three layers; the history has an empty-layer step in the middle and
    one at the end. *)
Definition exConfig : Image :=
  mkImage (Some 0) "alice" (mkPlatform "arm64" "linux" "" [] "v8")
    (mkImageConfig "" ∅ ["PATH=/bin"] [] ["/bin/sh"] ∅ "/" ∅ "" false)
    (mkRootFS "layers" ["sha256:da"; "sha256:db"; "sha256:dc"])
    [exStep "ADD a" false; exStep "ENV X=1" true; exStep "ADD b" false;
     exStep "ADD c" false; exStep "CMD sh" true].

Definition exRecord : ImagesImage :=
  mkImagesImage "app:latest" ∅
    (mkDescriptor MediaTypeDockerSchema2Manifest "sha256:manifest" 500) 0 0.

Definition exImageOf (layers : list Descriptor) : squashImage :=
  mkSquashImage exRecord exConfig exRecord (exManifestOf layers).

Definition exImage : squashImage := exImageOf [layerA; layerB; layerC].

Definition exOptions (count : Z) (dgst : string) : ImageSquashOptions :=
  mkOptions (mkGOptions "default" "overlayfs" true) " bob " " squashed "
    "app:latest" "app:squashed" count dgst.

(** A scripted set of collaborators. The state counts the Apply calls
    answered so far; [wApplyFailAt] is the index of the Apply call that
    fails, if any. *)
Record World := mkWorld {
  wConfig : result Image;
  wApplyFailAt : option nat;
  wCommit : goerror;
  wWriteBlob : goerror;
  wUpdate : ImagesImage * goerror;
  wCreate : result ImagesImage
}.

Definition worldHandler (w : World) : handler nat :=
  fun e =>
    match e as e0 return nat -> resp e0 * nat with
    | ImageStore_Get _ => fun n => (Ok exRecord, n)
    | ImageStore_Update _ => fun n => (wUpdate w, n)
    | ImageStore_Create _ => fun n => (wCreate w, n)
    | Imgutil_ReadManifest _ => fun n => (Ok (siManifest exImage), n)
    | Imgutil_ReadImageConfig _ => fun n => (wConfig w, n)
    | Differ_Apply layer _ => fun n =>
        (if decide (wApplyFailAt w = Some n)
         then Err (errors_New "apply failed") else Ok layer, S n)
    | Rootfs_CreateDiff _ => fun n =>
        (Ok (mkDescriptor MediaTypeDockerSchema2LayerGzip "sha256:new" 0), n)
    | Content_Info _ => fun n =>
        (Ok (mkContentInfo 42
               {[ "containerd.io/uncompressed" := "sha256:dnew" ]}), n)
    | Content_WriteBlob _ _ _ _ => fun n => (wWriteBlob w, n)
    | Snap_Prepare _ _ => fun n => (Ok [mkMount "overlay" "overlay" []], n)
    | Snap_Commit _ _ => fun n => (wCommit w, n)
    | Snap_Remove _ => fun n => (None, n)
    | Client_WithLease => fun n => (None, n)
    | Lease_Done => fun n => (None, n)
    | Image_Unpack _ _ => fun n => (None, n)
    | Time_Now => fun n => (1700000000123456789, n)
    | Rand_Read3 => fun n => ((Byte.x01, Byte.x02, Byte.x03), n)
    end.

Definition exWorld : World :=
  mkWorld (Ok exConfig) None None None (exRecord, None) (Ok exRecord).

(** The same collaborators with a snapshot commit that collides. *)
Definition exCollision : World :=
  mkWorld (Ok exConfig) None (Some (Errorf_w "snapshot" ErrAlreadyExists))
    None (exRecord, None) (Ok exRecord).

(** The same collaborators with an Apply that fails on the second layer. *)
Definition exApplyFails : World :=
  mkWorld (Ok exConfig) (Some 1%nat) None None (exRecord, None) (Ok exRecord).


(** * Verification *)

(** ** Layer selection *)

Section LayerSelector.
Variable opt : ImageSquashOptions.

Lemma generateSquashLayer_loop_found layers res :
  generateSquashLayer_loop opt layers true res = (true, res ++ layers).
Proof.
  revert res. induction layers as [|l rest IH]; intros res; simpl.
  - by rewrite app_nil_r.
  - destruct (decide _); rewrite IH, <- app_assoc; reflexivity.
Qed.

Lemma generateSquashLayer_loop_skip pre layers res :
  Forall (fun x => Digest_ x <> SquashLayerDigest opt) pre ->
  generateSquashLayer_loop opt (pre ++ layers) false res
  = generateSquashLayer_loop opt layers false res.
Proof.
  induction 1 as [|x pre Hx _ IH]; simpl; [reflexivity|].
  destruct (decide _); [contradiction | exact IH].
Qed.

Lemma generateSquashLayer_loop_first pre d post :
  Forall (fun x => Digest_ x <> SquashLayerDigest opt) pre ->
  Digest_ d = SquashLayerDigest opt ->
  generateSquashLayer_loop opt (pre ++ d :: post) false [] = (true, d :: post).
Proof.
  intros Hpre Hd. rewrite generateSquashLayer_loop_skip by assumption.
  simpl. destruct (decide _); [|contradiction].
  apply generateSquashLayer_loop_found.
Qed.

Lemma generateSquashLayer_loop_none layers res :
  Forall (fun x => Digest_ x <> SquashLayerDigest opt) layers ->
  generateSquashLayer_loop opt layers false res = (false, res).
Proof.
  intros Hno.
  rewrite <- (app_nil_r layers), generateSquashLayer_loop_skip by assumption.
  reflexivity.
Qed.

(** Every layer sequence either has no layer with the target digest or
    splits at the first one. *)
Lemma first_match_split (layers : list Descriptor) :
  Forall (fun x => Digest_ x <> SquashLayerDigest opt) layers \/
  exists pre d post,
    layers = pre ++ d :: post /\
    Forall (fun x => Digest_ x <> SquashLayerDigest opt) pre /\
    Digest_ d = SquashLayerDigest opt.
Proof.
  induction layers as [|l rest IH].
  - left. constructor.
  - destruct (decide (Digest_ l = SquashLayerDigest opt)) as [Heq|Hne].
    + right. exists [], l, rest. repeat split; [constructor | exact Heq].
    + destruct IH as [Hno | (pre & d & post & -> & Hpre & Hd)].
      * left. by constructor.
      * right. exists (l :: pre), d, post.
        repeat split; [by constructor | exact Hd].
Qed.

End LayerSelector.

Lemma generateSquashLayer_digest_suffix (opt : ImageSquashOptions)
    (image : squashImage) (pre : list Descriptor) (d : Descriptor)
    (post : list Descriptor) :
  SquashLayerDigest opt <> "" ->
  Layers (siManifest image) = pre ++ d :: post ->
  Forall (fun x => Digest_ x <> SquashLayerDigest opt) pre ->
  Digest_ d = SquashLayerDigest opt ->
  generateSquashLayer opt image = Ok (d :: post).
Proof.
  intros Hne Hl Hpre Hd. unfold generateSquashLayer.
  destruct (decide (SquashLayerDigest opt <> "")) as [_|Hn]; [|contradiction].
  rewrite Hl, (generateSquashLayer_loop_first opt) by assumption.
  reflexivity.
Qed.

Lemma generateSquashLayer_count_out_of_range (opt : ImageSquashOptions)
    (image : squashImage) :
  SquashLayerDigest opt = "" ->
  ~ (1 < SquashLayerCount opt <= len (Layers (siManifest image))) ->
  generateSquashLayer opt image
  = Err (Errorf_w "invalid squash option" ErrInvalidArgument).
Proof.
  intros Hd Hn. unfold generateSquashLayer. rewrite Hd.
  destruct (decide ("" <> "")) as [Hne|_]; [by destruct Hne|].
  assert ((1 <? SquashLayerCount opt)
          && (SquashLayerCount opt <=? len (Layers (siManifest image)))
          = false) as ->; [|reflexivity].
  apply andb_false_iff.
  destruct (Z.ltb_spec 1 (SquashLayerCount opt)); [|by left].
  destruct (Z.leb_spec (SquashLayerCount opt)
              (len (Layers (siManifest image)))); [lia | by right].
Qed.

(** C2. With an empty selector digest, a count [c] with [1 < c <= L]
    selects exactly the last [c] layer descriptors in their original order
    (the suffix of length [c] of the layer sequence), and every other count
    fails with InvalidArgument. *)
Theorem generateSquashLayer_by_count (opt : ImageSquashOptions)
    (image : squashImage) :
  SquashLayerDigest opt = "" ->
  let layers := Layers (siManifest image) in
  let c := SquashLayerCount opt in
  (1 < c <= len layers ->
   exists pre suf,
     layers = pre ++ suf /\ len suf = c /\
     generateSquashLayer opt image = Ok suf) /\
  (~ (1 < c <= len layers) ->
   exists e,
     generateSquashLayer opt image = Err e /\ IsInvalidArgument e = true).
Proof.
  intros Hd layers c. split.
  - intros [H1 H2]. unfold generateSquashLayer. fold layers. fold c.
    rewrite Hd. destruct (decide ("" <> "")) as [Hne|_]; [by destruct Hne|].
    assert ((1 <? c) && (c <=? len layers) = true) as ->.
    { apply andb_true_iff. split; [apply Z.ltb_lt | apply Z.leb_le]; lia. }
    exists (take (Z.to_nat (len layers - c)) layers),
           (drop (Z.to_nat (len layers - c)) layers).
    split; [by rewrite take_drop|]. split; [|reflexivity].
    unfold len in *. rewrite length_drop. lia.
  - intros Hn. eexists.
    split; [by apply generateSquashLayer_count_out_of_range | reflexivity].
Qed.

(** C3. With a non-empty selector digest (whatever the count), the
    selection is the suffix of the layer sequence that starts at the first
    descriptor whose digest equals the target; it fails exactly when no
    descriptor has that digest, and the failure is NotFound. *)
Theorem generateSquashLayer_by_digest (opt : ImageSquashOptions)
    (image : squashImage) :
  SquashLayerDigest opt <> "" ->
  let layers := Layers (siManifest image) in
  let target := SquashLayerDigest opt in
  (forall pre d post,
     layers = pre ++ d :: post ->
     Forall (fun x => Digest_ x <> target) pre ->
     Digest_ d = target ->
     generateSquashLayer opt image = Ok (d :: post)) /\
  ((exists e, generateSquashLayer opt image = Err e) <->
   Forall (fun x => Digest_ x <> target) layers) /\
  (forall e, generateSquashLayer opt image = Err e -> IsNotFound e = true).
Proof.
  intros Hd layers target.
  split; [intros pre d post; by apply generateSquashLayer_digest_suffix|].
  unfold generateSquashLayer. fold layers.
  destruct (decide (SquashLayerDigest opt <> "")) as [_|Hn]; [|contradiction].
  split.
  - destruct (first_match_split opt layers)
      as [Hno | (pre & d & post & Hl & Hpre & Hm)].
    + rewrite (generateSquashLayer_loop_none opt) by assumption. simpl.
      split; [intros _; exact Hno | intros _; eexists; reflexivity].
    + rewrite Hl, (generateSquashLayer_loop_first opt) by assumption. simpl.
      split; [intros [e He]; discriminate|].
      intros Hall. apply Forall_app in Hall as [_ Hall].
      inversion Hall; subst. contradiction.
  - intros e.
    destruct (generateSquashLayer_loop opt layers false []) as [[] res]; simpl;
      intros He; inversion He; reflexivity.
Qed.

Lemma generateSquashLayer_by_count_witness :
  SquashLayerDigest (exOptions 2 "") = "" /\
  generateSquashLayer (exOptions 2 "") exImage = Ok [layerB; layerC].
Proof.
  split; [reflexivity|].
  destruct (generateSquashLayer_by_count (exOptions 2 "") exImage eq_refl)
    as [Hin _].
  destruct Hin as (pre & suf & Hsplit & Hlen & ->);
    [unfold len; simpl; lia|].
  f_equal.
  assert (length suf = 2%nat) as Hl by (unfold len in Hlen; simpl in Hlen; lia).
  assert (length pre = 1%nat) as Hp.
  { apply (f_equal (@length _)) in Hsplit.
    rewrite length_app in Hsplit. simpl in Hsplit. lia. }
  destruct pre as [|x [|? ?]]; try discriminate.
  simpl in Hsplit. by inversion Hsplit.
Defined.

Lemma generateSquashLayer_by_digest_witness :
  SquashLayerDigest (exOptions 0 "sha256:b") <> "" /\
  generateSquashLayer (exOptions 0 "sha256:b") exImage = Ok [layerB; layerC].
Proof.
  assert (SquashLayerDigest (exOptions 0 "sha256:b") <> "") as Hne
    by discriminate.
  split; [exact Hne|].
  destruct (generateSquashLayer_by_digest (exOptions 0 "sha256:b") exImage Hne)
    as [Hfirst _].
  apply (Hfirst [layerA] layerB [layerC]); [reflexivity | | reflexivity].
  constructor; [discriminate | constructor].
Defined.

(** A manifest may list the same layer twice. When the last layer's digest
    equals the target and an earlier layer has the same digest, the
    selection starts at the earlier one: it is not a one-element suffix. *)
Lemma generateSquashLayer_last_layer_counterexample :
  last (Layers (siManifest (exImageOf [layerA; layerA]))) = Some layerA /\
  Digest_ layerA = SquashLayerDigest (exOptions 0 "sha256:a") /\
  generateSquashLayer (exOptions 0 "sha256:a") (exImageOf [layerA; layerA])
  = Ok [layerA; layerA] /\
  ~ (exists d,
       generateSquashLayer (exOptions 0 "sha256:a")
         (exImageOf [layerA; layerA]) = Ok [d]).
Proof.
  repeat split. intros [d Hd]. discriminate Hd.
Qed.

(** C9 (amended). Digest-mode selection has no minimum suffix size. When the
    last layer is the first layer whose digest equals the target, the
    selection is that single layer; when the first layer's digest equals the
    target, the selection is the whole layer sequence, so that no layer is
    retained; on a single-layer image whose layer has the target digest this
    succeeds, while the count selection of 1 on the same image fails with
    InvalidArgument. *)
Theorem generateSquashLayer_digest_no_minimum (opt : ImageSquashOptions)
    (image : squashImage) :
  SquashLayerDigest opt <> "" ->
  let layers := Layers (siManifest image) in
  let target := SquashLayerDigest opt in
  (forall pre d,
     layers = pre ++ [d] -> Digest_ d = target ->
     Forall (fun x => Digest_ x <> target) pre ->
     generateSquashLayer opt image = Ok [d]) /\
  (forall d rest,
     layers = d :: rest -> Digest_ d = target ->
     generateSquashLayer opt image = Ok layers /\
     len layers - len layers = 0) /\
  (forall d,
     layers = [d] -> Digest_ d = target ->
     generateSquashLayer opt image = Ok [d] /\
     forall opt',
       SquashLayerDigest opt' = "" -> SquashLayerCount opt' = 1 ->
       exists e,
         generateSquashLayer opt' image = Err e /\
         IsInvalidArgument e = true).
Proof.
  intros Hne layers target.
  assert (forall pre d post,
            layers = pre ++ d :: post ->
            Forall (fun x => Digest_ x <> target) pre ->
            Digest_ d = target ->
            generateSquashLayer opt image = Ok (d :: post)) as Hfirst
    by (intros pre d post; by apply generateSquashLayer_digest_suffix).
  split; [|split].
  - intros pre d Hl Hd Hpre. by apply (Hfirst pre d []).
  - intros d rest Hl Hd. split; [|lia].
    rewrite Hl. by apply (Hfirst [] d rest).
  - intros d Hl Hd. split; [by apply (Hfirst [] d [])|].
    intros opt' Hd' Hc'.
    rewrite (generateSquashLayer_count_out_of_range opt' image Hd')
      by (rewrite Hc'; lia).
    eexists. split; reflexivity.
Qed.

Lemma generateSquashLayer_digest_no_minimum_witness :
  generateSquashLayer (exOptions 0 "sha256:c") exImage = Ok [layerC] /\
  generateSquashLayer (exOptions 0 "sha256:a") exImage
  = Ok [layerA; layerB; layerC] /\
  generateSquashLayer (exOptions 0 "sha256:a") (exImageOf [layerA])
  = Ok [layerA] /\
  exists e,
    generateSquashLayer (exOptions 1 "") (exImageOf [layerA]) = Err e /\
    IsInvalidArgument e = true.
Proof.
  assert (forall d, SquashLayerDigest (exOptions 0 (String "s" d)) <> "")
    as Hne by discriminate.
  split; [|split; [|split]].
  - apply (proj1 (generateSquashLayer_digest_no_minimum
                    (exOptions 0 "sha256:c") exImage (Hne _))
             [layerA; layerB] layerC); [reflexivity | reflexivity |].
    repeat constructor; discriminate.
  - apply (proj1 (proj2 (generateSquashLayer_digest_no_minimum
                    (exOptions 0 "sha256:a") exImage (Hne _)))
             layerA [layerB; layerC]); reflexivity.
  - apply (proj2 (proj2 (generateSquashLayer_digest_no_minimum
                    (exOptions 0 "sha256:a") (exImageOf [layerA]) (Hne _)))
             layerA); reflexivity.
  - apply (proj2 (proj2 (generateSquashLayer_digest_no_minimum
                    (exOptions 0 "sha256:a") (exImageOf [layerA]) (Hne _)))
             layerA eq_refl eq_refl); reflexivity.
Defined.

(** ** Runs of composed programs *)

Section Runs.
Context {S : Type} (h : handler S).

Lemma run_bind {A B} (p : Prog A) (f : A -> Prog B) (s : S) :
  run h (bind p f) s =
  match out_of h p s with
  | Returned a =>
      (out_of h (f a) (state_of h p s), state_of h (f a) (state_of h p s),
       trace_of h p s ++ trace_of h (f a) (state_of h p s))
  | Panicked msg => (Panicked msg, state_of h p s, trace_of h p s)
  end.
Proof.
  revert s. induction p as [a|msg|e k IH]; intros s.
  - unfold out_of, state_of, trace_of. simpl. by destruct (run h (f a) s) as [[??]?].
  - reflexivity.
  - simpl. rewrite IH. unfold out_of, state_of, trace_of. simpl.
    by destruct (fst (fst (run h (k (fst (h e s))) (snd (h e s))))).
Qed.

Lemma out_bind {A B} (p : Prog A) (f : A -> Prog B) (s : S) :
  out_of h (bind p f) s =
  match out_of h p s with
  | Returned a => out_of h (f a) (state_of h p s)
  | Panicked msg => Panicked msg
  end.
Proof.
  unfold out_of at 1. rewrite run_bind. by destruct (out_of h p s).
Qed.

Lemma trace_bind {A B} (p : Prog A) (f : A -> Prog B) (s : S) :
  trace_of h (bind p f) s =
  trace_of h p s ++
  match out_of h p s with
  | Returned a => trace_of h (f a) (state_of h p s)
  | Panicked _ => []
  end.
Proof.
  unfold trace_of at 1. rewrite run_bind.
  destruct (out_of h p s); simpl; [reflexivity | by rewrite app_nil_r].
Qed.

Lemma state_bind {A B} (p : Prog A) (f : A -> Prog B) (s : S) :
  state_of h (bind p f) s =
  match out_of h p s with
  | Returned a => state_of h (f a) (state_of h p s)
  | Panicked _ => state_of h p s
  end.
Proof.
  unfold state_of at 1. rewrite run_bind. by destruct (out_of h p s).
Qed.

Lemma run_defer {A} (d : option A -> Prog unit) (p : Prog A) (s : S) :
  run h (defer d p) s =
  let o := out_of h p s in
  let s1 := state_of h p s in
  (match out_of h (d (deferred_arg o)) s1 with
   | Returned _ => o
   | Panicked msg => Panicked msg
   end,
   state_of h (d (deferred_arg o)) s1,
   trace_of h p s ++ trace_of h (d (deferred_arg o)) s1).
Proof.
  revert s. induction p as [a|msg|e k IH]; intros s.
  - simpl. rewrite run_bind. unfold out_of, state_of, trace_of. simpl.
    destruct (run h (d (Some a)) s) as [[[] ?] ?]; simpl;
      [by rewrite app_nil_r | reflexivity].
  - simpl. rewrite run_bind. unfold out_of, state_of, trace_of. simpl.
    destruct (run h (d None) s) as [[[] ?] ?]; simpl;
      [by rewrite app_nil_r | reflexivity].
  - simpl. rewrite IH. reflexivity.
Qed.

End Runs.

(** ** Base config derivation *)

Lemma generateBaseImageConfig_loop_spec (hs : list History) (rem : Z) :
  forall (acc : list History) (count : Z),
    count <= rem ->
    exists kept dropped,
      hs = kept ++ dropped /\
      generateBaseImageConfig_loop hs rem acc count = acc ++ kept /\
      count + len (nonEmptyLayers kept) <= rem /\
      (dropped = [] \/
       exists h0 rest,
         dropped = h0 :: rest /\ EmptyLayer h0 = false /\
         count + len (nonEmptyLayers kept) = rem).
Proof.
  unfold nonEmptyLayers, len.
  induction hs as [|x rest IH]; intros acc count Hc; simpl.
  - exists [], []. simpl.
    repeat split; [by rewrite app_nil_r | lia | by left].
  - destruct (EmptyLayer x) eqn:Hx.
    + destruct (IH (acc ++ [x]) count Hc)
        as (kept & dropped & -> & -> & Hle & Hd).
      exists (x :: kept), dropped. rewrite <- app_assoc. simpl.
      rewrite filter_cons_False by congruence. repeat split; assumption.
    + destruct (Z.leb_spec (count + 1) rem) as [Hle1|Hgt].
      * destruct (IH (acc ++ [x]) (count + 1) Hle1)
          as (kept & dropped & -> & -> & Hle & Hd).
        exists (x :: kept), dropped. rewrite <- app_assoc. simpl.
        rewrite filter_cons_True by assumption. simpl.
        repeat split; [lia|].
        destruct Hd as [->|(h0 & r & -> & Hh0 & Heq)]; [by left|].
        right. exists h0, r. repeat split; [assumption | lia].
      * exists [], (x :: rest). simpl.
        repeat split; [by rewrite app_nil_r | lia |].
        right. exists x, rest. repeat split; [assumption | lia].
Qed.

(** The claimed preservation of every empty-layer entry fails: with one
    layer retained out of three, the derivation stops at the second layer's
    entry, and the empty-layer entry that ends the original history is not
    in the result. *)
Lemma generateBaseImageConfig_counterexample :
  1 <= len (DiffIDs (RootFS_ exConfig)) /\
  exists cfg,
    out_of (worldHandler exWorld) (generateBaseImageConfig exImage 1) 0%nat
    = Returned (Ok cfg) /\
    History_ cfg = [exStep "ADD a" false; exStep "ENV X=1" true] /\
    emptyLayers (History_ exConfig)
    = [exStep "ENV X=1" true; exStep "CMD sh" true] /\
    emptyLayers (History_ cfg) <> emptyLayers (History_ exConfig).
Proof.
  split; [unfold len; simpl; lia|].
  eexists. split; [reflexivity|].
  split; [reflexivity|]. split; [reflexivity|]. discriminate.
Qed.

(** A negative count is outside what the slicing accepts. *)
Example generateBaseImageConfig_negative_panics :
  out_of (worldHandler exWorld) (generateBaseImageConfig exImage (-1)) 0%nat
  = Panicked "slice bounds out of range".
Proof. reflexivity. Qed.

(** C1 (amended). For an original config, as read from the image, and a
    count [0 <= remaining <= len diffIDs], the base config has as diffIDs
    exactly the first [remaining] diffIDs of the original, and as history
    the prefix of the original history that stops just before the first
    non-empty-layer entry that would exceed [remaining] (the whole history
    when there is none). So the history has at most [remaining]
    non-empty-layer entries, and its empty-layer entries are those of the
    original up to the stopping point, in their original order; the
    empty-layer entries after that point are dropped with the rest. *)
Theorem generateBaseImageConfig_prefix {S : Type} (h : handler S) (s : S)
    (image : squashImage) (remaining : Z) (orig : Image) :
  fst (h (Imgutil_ReadImageConfig (ClientImage image)) s) = Ok orig ->
  0 <= remaining <= len (DiffIDs (RootFS_ orig)) ->
  exists cfg dropped,
    out_of h (generateBaseImageConfig image remaining) s = Returned (Ok cfg) /\
    DiffIDs (RootFS_ cfg)
    = take (Z.to_nat remaining) (DiffIDs (RootFS_ orig)) /\
    len (DiffIDs (RootFS_ cfg)) = remaining /\
    History_ orig = History_ cfg ++ dropped /\
    len (nonEmptyLayers (History_ cfg)) <= remaining /\
    emptyLayers (History_ orig)
    = emptyLayers (History_ cfg) ++ emptyLayers dropped /\
    (dropped = [] \/
     exists h0 rest,
       dropped = h0 :: rest /\ EmptyLayer h0 = false /\
       len (nonEmptyLayers (History_ cfg)) = remaining).
Proof.
  intros Hread Hrange.
  destruct (generateBaseImageConfig_loop_spec (History_ orig) remaining [] 0)
    as (kept & dropped & Hsplit & Hloop & Hle & Hd); [lia|].
  simpl in Hloop.
  unfold out_of, generateBaseImageConfig. simpl.
  destruct (h (Imgutil_ReadImageConfig (ClientImage image)) s) as [r s1].
  simpl in Hread. subst r. simpl.
  unfold slice_to.
  assert ((0 <=? remaining)
          && (remaining <=? Z.of_nat (length (DiffIDs (RootFS_ orig)))) = true)
    as ->.
  { apply andb_true_iff. unfold len in Hrange.
    split; apply Z.leb_le; lia. }
  simpl. eexists _, dropped. split; [reflexivity|]. simpl.
  rewrite Hloop.
  split; [reflexivity|].
  split; [unfold len in *; rewrite length_take; lia|].
  split; [exact Hsplit|].
  split; [lia|].
  split; [unfold emptyLayers; by rewrite Hsplit, filter_app|].
  destruct Hd as [->|(h0 & r & -> & Hh0 & Heq)]; [by left|].
  right. exists h0, r. repeat split; [assumption | lia].
Qed.

Lemma generateBaseImageConfig_prefix_witness :
  exists cfg dropped,
    out_of (worldHandler exWorld) (generateBaseImageConfig exImage 1) 0%nat
    = Returned (Ok cfg) /\
    DiffIDs (RootFS_ cfg) = take (Z.to_nat 1) (DiffIDs (RootFS_ exConfig)) /\
    len (DiffIDs (RootFS_ cfg)) = 1 /\
    History_ exConfig = History_ cfg ++ dropped /\
    len (nonEmptyLayers (History_ cfg)) <= 1 /\
    emptyLayers (History_ exConfig)
    = emptyLayers (History_ cfg) ++ emptyLayers dropped /\
    (dropped = [] \/
     exists h0 rest,
       dropped = h0 :: rest /\ EmptyLayer h0 = false /\
       len (nonEmptyLayers (History_ cfg)) = 1).
Proof.
  apply (generateBaseImageConfig_prefix (worldHandler exWorld) 0%nat
           exImage 1 exConfig).
  - reflexivity.
  - unfold len. simpl. lia.
Defined.

(** ** Commit config derivation *)

(** C8. The commit config has the base config's diffIDs followed by the
    new diffID, and the base config's history followed by exactly one new
    entry. The author of that entry is the author override with its
    surrounding white space trimmed when that is not empty, and the base
    config's author otherwise; its comment is the trimmed commit message; it
    is not an empty-layer entry. *)
Theorem generateCommitImageConfig_appends `{GoLibs} {S : Type}
    (h : handler S) (s : S) (opt : ImageSquashOptions) (baseConfig : Image)
    (diffID : Digest) :
  exists cfg entry,
    out_of h (generateCommitImageConfig opt baseConfig diffID) s
    = Returned (Ok cfg) /\
    DiffIDs (RootFS_ cfg) = DiffIDs (RootFS_ baseConfig) ++ [diffID] /\
    History_ cfg = History_ baseConfig ++ [entry] /\
    hAuthor entry
    = (if decide (strings_TrimSpace (oAuthor opt) = "")
       then Author baseConfig else strings_TrimSpace (oAuthor opt)) /\
    hComment entry = strings_TrimSpace (oMessage opt) /\
    EmptyLayer entry = false.
Proof.
  unfold out_of, generateCommitImageConfig. simpl.
  eexists _, _. split; [reflexivity|]. simpl.
  repeat split; reflexivity.
Qed.

Example generateCommitImageConfig_trimmed_author :
  exists cfg,
    out_of (worldHandler exWorld)
      (generateCommitImageConfig (H := exLibs) (exOptions 2 "") exConfig
         "sha256:dnew") 0%nat
    = Returned (Ok cfg) /\
    Author cfg = "bob" /\
    last (History_ cfg)
    = Some (mkHistory (Some 1700000000123456789) "" "bob" "squashed" false).
Proof. eexists. repeat split. Qed.

(** C10. The commit config's rootfs type is the literal "layers" whatever
    the base config's rootfs type is, while the base config derivation
    copies the rootfs type of the original config it reads. *)
Theorem rootfs_type_of_derived_configs `{GoLibs} {S : Type}
    (h : handler S) (s : S) (opt : ImageSquashOptions) (image : squashImage)
    (remaining : Z) (orig baseConfig : Image) (diffID : Digest) :
  fst (h (Imgutil_ReadImageConfig (ClientImage image)) s) = Ok orig ->
  0 <= remaining <= len (DiffIDs (RootFS_ orig)) ->
  (exists cfg,
     out_of h (generateCommitImageConfig opt baseConfig diffID) s
     = Returned (Ok cfg) /\
     Type_ (RootFS_ cfg) = "layers") /\
  (exists cfg,
     out_of h (generateBaseImageConfig image remaining) s
     = Returned (Ok cfg) /\
     Type_ (RootFS_ cfg) = Type_ (RootFS_ orig)).
Proof.
  intros Hread Hrange. split.
  - unfold out_of, generateCommitImageConfig. simpl.
    eexists. split; reflexivity.
  - unfold out_of, generateBaseImageConfig. simpl.
    destruct (h (Imgutil_ReadImageConfig (ClientImage image)) s) as [r s1].
    simpl in Hread. subst r. simpl. unfold slice_to.
    assert ((0 <=? remaining)
            && (remaining <=? Z.of_nat (length (DiffIDs (RootFS_ orig))))
            = true) as ->.
    { apply andb_true_iff. unfold len in Hrange.
      split; apply Z.leb_le; lia. }
    simpl. eexists. split; reflexivity.
Qed.

Lemma rootfs_type_of_derived_configs_witness :
  (exists cfg,
     out_of (worldHandler exWorld)
       (generateCommitImageConfig (H := exLibs) (exOptions 2 "")
          (mkImage None "" (mkPlatform "" "" "" [] "") (Config exConfig)
             (mkRootFS "other" []) [])
          "sha256:dnew") 0%nat
     = Returned (Ok cfg) /\
     Type_ (RootFS_ cfg) = "layers") /\
  (exists cfg,
     out_of (worldHandler exWorld) (generateBaseImageConfig exImage 1) 0%nat
     = Returned (Ok cfg) /\
     Type_ (RootFS_ cfg) = Type_ (RootFS_ exConfig)).
Proof.
  apply (rootfs_type_of_derived_configs (H := exLibs)
           (worldHandler exWorld) 0%nat (exOptions 2 "") exImage 1 exConfig).
  - reflexivity.
  - unfold len. simpl. lia.
Defined.

(** ** Image record upsert *)

(** C7. The upsert first calls Update. It calls Create exactly when Update
    failed with NotFound, and then succeeds when Create succeeds. An Update
    failure other than NotFound, and a Create failure, make it return an
    error that wraps the store's error. The theorem gives the calls made
    and the result for each answer of the image store. *)
Theorem createSquashImage_upsert {S : Type} (h : handler S) (s : S)
    (img : ImagesImage) :
  let update := h (ImageStore_Update img) s in
  let create := h (ImageStore_Create img) (snd update) in
  let newImg := fst (fst update) in
  let out := out_of h (createSquashImage img) s in
  let tr := trace_of h (createSquashImage img) s in
  match snd (fst update) with
  | None =>
      out = Returned (newImg, None) /\
      tr = [Ent (ImageStore_Update img) (fst update)]
  | Some uerr =>
      if IsNotFound uerr then
        tr = [Ent (ImageStore_Update img) (fst update);
              Ent (ImageStore_Create img) (fst create)] /\
        match fst create with
        | Ok _ => out = Returned (newImg, None)
        | Err cerr =>
            out = Returned
                    (newImg,
                     Some (Errorf_w
                             ("failed to create new squashImage " +:+ Name img)
                             cerr))
        end
      else
        out = Returned
                (newImg,
                 Some (Errorf_w
                         ("failed to update new squashImage " +:+ Name img)
                         uerr)) /\
        tr = [Ent (ImageStore_Update img) (fst update)]
  end.
Proof.
  unfold out_of, trace_of, createSquashImage. simpl.
  destruct (h (ImageStore_Update img) s) as [[newImg [uerr|]] s1]; simpl;
    [|split; reflexivity].
  destruct (IsNotFound uerr); simpl; [|split; reflexivity].
  destruct (h (ImageStore_Create img) s1) as [[c|cerr] s2]; simpl;
    split; reflexivity.
Qed.

Example createSquashImage_creates_when_absent :
  let w := mkWorld (Ok exConfig) None None None
             (zeroImagesImage, Some (Errorf_w "image app:squashed" ErrNotFound))
             (Ok exRecord) in
  out_of (worldHandler w) (createSquashImage exRecord) 0%nat
  = Returned (zeroImagesImage, None) /\
  trace_of (worldHandler w) (createSquashImage exRecord) 0%nat
  = [Ent (ImageStore_Update exRecord)
       (zeroImagesImage, Some (Errorf_w "image app:squashed" ErrNotFound));
     Ent (ImageStore_Create exRecord) (Ok exRecord)].
Proof. split; reflexivity. Qed.

Example createSquashImage_update_fails :
  let w := mkWorld (Ok exConfig) None None None
             (zeroImagesImage, Some (errors_New "unavailable"))
             (Ok exRecord) in
  out_of (worldHandler w) (createSquashImage exRecord) 0%nat
  = Returned
      (zeroImagesImage,
       Some (Errorf_w "failed to update new squashImage app:latest"
               (errors_New "unavailable"))) /\
  trace_of (worldHandler w) (createSquashImage exRecord) 0%nat
  = [Ent (ImageStore_Update exRecord)
       (zeroImagesImage, Some (errors_New "unavailable"))].
Proof. split; reflexivity. Qed.

(** ** Manifest writer *)

Local Abbreviation gcKey j := ("containerd.io/gc.ref.content." +:+ pretty (j : nat)).

Lemma gcKey_inj (i j : nat) : gcKey i = gcKey j -> i = j.
Proof. intros Heq. apply String.app_inj in Heq. by apply (inj pretty). Qed.

Lemma gcLabels_loop_other (layers : list Descriptor) :
  forall (i : nat) (labels : gmap string string) (k : string),
    (forall idx, (idx < length layers)%nat -> k <> gcKey (i + idx + 1)%nat) ->
    gcLabels_loop i layers labels !! k = labels !! k.
Proof.
  induction layers as [|l rest IH]; intros i labels k Hk; [reflexivity|].
  cbn [gcLabels_loop]. rewrite IH.
  - apply lookup_insert_ne. intros Heq.
    apply (Hk 0%nat); [simpl; lia|].
    rewrite <- Heq. by rewrite Nat.add_0_r.
  - intros idx Hidx. replace (S i + idx + 1)%nat with (i + S idx + 1)%nat by lia.
    apply Hk. simpl. lia.
Qed.

Lemma gcLabels_loop_layer (layers : list Descriptor) :
  forall (i : nat) (labels : gmap string string) (idx : nat) (l : Descriptor),
    layers !! idx = Some l ->
    gcLabels_loop i layers labels !! gcKey (i + idx + 1)%nat
    = Some (Digest_ l).
Proof.
  induction layers as [|l0 rest IH]; intros i labels idx l Hl; [done|].
  cbn [gcLabels_loop]. destruct idx as [|idx]; simpl in Hl.
  - inversion Hl; subst l0. rewrite gcLabels_loop_other.
    + rewrite Nat.add_0_r. apply lookup_insert_eq.
    + intros idx _ Heq. apply gcKey_inj in Heq. lia.
  - replace (i + S idx + 1)%nat with (S i + idx + 1)%nat by lia.
    by apply IH.
Qed.

Lemma gcLabels_loop_keys (layers : list Descriptor) :
  forall (i : nat) (labels : gmap string string) (k : string),
    is_Some (gcLabels_loop i layers labels !! k) ->
    is_Some (labels !! k) \/
    exists idx, (idx < length layers)%nat /\ k = gcKey (i + idx + 1)%nat.
Proof.
  induction layers as [|l rest IH]; intros i labels k Hk; [by left|].
  cbn [gcLabels_loop] in Hk. apply IH in Hk as [Hk|(idx & Hidx & ->)].
  - destruct (decide (gcKey (i + 1)%nat = k)) as [<-|Hne].
    + right. exists 0%nat. split; [simpl; lia|]. by rewrite Nat.add_0_r.
    + left. by rewrite lookup_insert_ne in Hk.
  - right. exists (Datatypes.S idx). split; [simpl; lia|].
    by replace (i + S idx + 1)%nat with (S i + idx + 1)%nat by lia.
Qed.

Lemma gcLabels_loop_size (layers : list Descriptor) :
  forall (i : nat) (labels : gmap string string),
    (forall idx, (idx < length layers)%nat ->
                 labels !! gcKey (i + idx + 1)%nat = None) ->
    size (gcLabels_loop i layers labels) = (size labels + length layers)%nat.
Proof.
  induction layers as [|l rest IH]; intros i labels Hfresh; simpl; [lia|].
  rewrite IH.
  - rewrite map_size_insert_None; [lia|].
    specialize (Hfresh 0%nat). rewrite Nat.add_0_r in Hfresh.
    apply Hfresh. simpl. lia.
  - intros idx Hidx. rewrite lookup_insert_ne.
    + replace (S i + idx + 1)%nat with (i + S idx + 1)%nat by lia.
      apply Hfresh. simpl. lia.
    + intros Heq. apply gcKey_inj in Heq. lia.
Qed.

(** C4. Whenever the config and the manifest serialise, the first write of
    the manifest writer is the manifest blob. The manifest it serialises has
    as layers the retained base-layer descriptors, in their order, followed
    by the new diff descriptor as the last element. For the [N] layers of
    that manifest the blob's labels are exactly [N + 1], all of the form
    gc.ref.content.j with [j <= N]: index 0 holds the config digest and
    index [i + 1] the digest of layer [i]. *)
Theorem writeContentsForImage_manifest `{GoLibs} {S : Type} (h : handler S)
    (s : S) (snName : string) (newConfig : Image)
    (baseImageLayers : list Descriptor) (diffLayerDesc : Descriptor)
    (newConfigJSON newMfstJSON : string) :
  let configDesc :=
    mkDescriptor MediaTypeDockerSchema2Config (digest_FromBytes newConfigJSON)
      (Z.of_nat (String.length newConfigJSON)) in
  let layers := baseImageLayers ++ [diffLayerDesc] in
  json_Marshal newConfig = Ok newConfigJSON ->
  json_MarshalIndent
    (mkNewMfst MediaTypeDockerSchema2Manifest
       (mkManifest 2 "" configDesc layers)) = Ok newMfstJSON ->
  exists labels r rest,
    trace_of h
      (writeContentsForImage snName newConfig baseImageLayers diffLayerDesc) s
    = Ent (Content_WriteBlob (digest_FromBytes newMfstJSON) newMfstJSON
             (mkDescriptor MediaTypeDockerSchema2Manifest
                (digest_FromBytes newMfstJSON)
                (Z.of_nat (String.length newMfstJSON)))
             labels) r :: rest /\
    take (length baseImageLayers) layers = baseImageLayers /\
    last layers = Some diffLayerDesc /\
    size labels = Datatypes.S (length layers) /\
    labels !! "containerd.io/gc.ref.content.0" = Some (Digest_ configDesc) /\
    (forall i l,
       layers !! i = Some l ->
       labels !! gcKey (i + 1)%nat = Some (Digest_ l)) /\
    (forall k,
       is_Some (labels !! k) ->
       exists j, (j <= length layers)%nat /\ k = gcKey j).
Proof.
  intros configDesc layers Hcfg Hmfst.
  assert (gcKey 0%nat = "containerd.io/gc.ref.content.0") as Hzero
    by reflexivity.
  unfold trace_of, writeContentsForImage. rewrite Hcfg. cbv zeta.
  fold configDesc. fold layers. rewrite Hmfst.
  cbn [run bind call fst snd].
  set (labels := gcLabels_loop 0 layers _).
  eexists labels, _, _. split; [reflexivity|].
  split; [by apply take_app_length|].
  split; [by apply last_snoc|].
  split; [|split; [|split]].
  - unfold labels. rewrite gcLabels_loop_size.
    + rewrite map_size_singleton. lia.
    + intros idx _. apply lookup_singleton_ne. rewrite <- Hzero.
      intros Heq. apply gcKey_inj in Heq. lia.
  - unfold labels. rewrite gcLabels_loop_other.
    + apply lookup_singleton_eq.
    + intros idx _. rewrite <- Hzero. intros Heq.
      apply gcKey_inj in Heq. lia.
  - intros i l Hl. unfold labels.
    by apply (gcLabels_loop_layer layers 0%nat).
  - intros k Hk. unfold labels in Hk.
    apply gcLabels_loop_keys in Hk as [Hk|(idx & Hidx & ->)].
    + exists 0%nat. split; [lia|].
      destruct (decide ("containerd.io/gc.ref.content.0" = k)) as [<-|Hne];
        [by rewrite Hzero|].
      rewrite lookup_singleton_ne in Hk by assumption.
      by destruct Hk.
    + exists (0 + idx + 1)%nat. split; [lia | reflexivity].
Qed.

Lemma writeContentsForImage_manifest_witness :
  exists labels r rest,
    trace_of (worldHandler exWorld)
      (writeContentsForImage (H := exLibs) "overlayfs" exConfig [layerA]
         layerC) 0%nat
    = Ent (Content_WriteBlob "sha256:manifest of 2" "manifest of 2"
             (mkDescriptor MediaTypeDockerSchema2Manifest
                "sha256:manifest of 2" 13)
             labels) r :: rest /\
    size labels = 3%nat /\
    labels !! "containerd.io/gc.ref.content.0" = Some "sha256:config by alice" /\
    labels !! "containerd.io/gc.ref.content.1" = Some "sha256:a" /\
    labels !! "containerd.io/gc.ref.content.2" = Some "sha256:c".
Proof.
  destruct (writeContentsForImage_manifest (H := exLibs)
              (worldHandler exWorld) 0%nat "overlayfs" exConfig [layerA]
              layerC "config by alice" "manifest of 2" eq_refl eq_refl)
    as (labels & r & rest & Htr & _ & _ & Hsize & Hcfg & Hlayers & _).
  exists labels, r, rest.
  split; [exact Htr|]. split; [exact Hsize|]. split; [exact Hcfg|].
  split.
  - exact (Hlayers 0%nat layerA eq_refl).
  - exact (Hlayers 1%nat layerC eq_refl).
Defined.

(** ** Snapshot differ *)

Ltac norm_trace :=
  cbn [app]; rewrite <- ?app_assoc; cbn [app]; rewrite ?app_nil_r.
Ltac norm_trace_in H :=
  cbn [app] in H; rewrite <- ?app_assoc in H; cbn [app] in H;
  rewrite ?app_nil_r in H.

Section DifferRuns.
Context `{GoLibs} {S : Type} (h : handler S).

Lemma applyLayersToSnapshot_runs (m : list Mount) (layers : list Descriptor) :
  forall s : S,
    exists err,
      out_of h (applyLayersToSnapshot m layers) s = Returned err /\
      apply_runs m layers err (trace_of h (applyLayersToSnapshot m layers) s).
Proof.
  induction layers as [|layer rest IH]; intros s.
  - exists None. split; [reflexivity | constructor].
  - unfold out_of, trace_of. cbn [applyLayersToSnapshot bind call run fst snd].
    destruct (h (Differ_Apply layer m) s) as [[d|e] s1]; cbn [fst snd].
    + destruct (IH s1) as (err & Hout & Htr). exists err.
      split; [exact Hout | constructor; exact Htr].
    + exists (Some e). split; [reflexivity | constructor].
Qed.

Lemma createDiff_runs_sound (snapshotName : string) (s : S) :
  exists res,
    out_of h (createDiff snapshotName) s = Returned res /\
    createDiff_runs snapshotName res (trace_of h (createDiff snapshotName) s).
Proof.
  unfold out_of, trace_of, createDiff. cbn [bind call run fst snd].
  destruct (h (Rootfs_CreateDiff snapshotName) s) as [[newDesc|e] s1];
    cbn [fst snd run].
  2: { eexists. split; [reflexivity | constructor]. }
  destruct (h (Content_Info (Digest_ newDesc)) s1) as [[info|e] s2];
    cbn [fst snd run].
  2: { eexists. split; [reflexivity | constructor]. }
  destruct (ciLabels info !! "containerd.io/uncompressed")
    as [diffIDStr|] eqn:Hlabel; cbn [fst snd run].
  2: { eexists. split; [reflexivity | by constructor]. }
  destruct (digest_Parse diffIDStr) as [diffID|e] eqn:Hparse;
    cbn [fst snd run].
  - eexists. split; [reflexivity | by econstructor].
  - eexists. split; [reflexivity | by econstructor].
Qed.

Lemma applyDiffLayer_runs_sound (baseImg : Image) (layers : list Descriptor)
    (s : S) :
  exists res,
    out_of h (applyDiffLayer baseImg layers) s = Returned res /\
    applyDiffLayer_runs baseImg layers res
      (trace_of h (applyDiffLayer baseImg layers) s).
Proof.
  unfold out_of, trace_of, applyDiffLayer, uniquePart.
  cbn [bind call run fst snd].
  destruct (h Time_Now s) as [t s1]. cbn [fst snd].
  destruct (h Rand_Read3 s1) as [b s2]. cbn [fst snd].
  set (key := pretty (Nanosecond t) +:+ "-"
              +:+ base64_URLEncoding_EncodeToString b).
  destruct (h (Snap_Prepare key _) s2) as [[m|e] s3]; cbn [fst snd run].
  2: { eexists. split; [reflexivity | constructor]. }
  rewrite run_defer. cbv zeta. cbn [fst snd].
  rewrite out_bind, trace_bind, state_bind.
  destruct (applyLayersToSnapshot_runs m layers s3) as (err & Hout & Htr).
  rewrite Hout.
  generalize dependent (trace_of h (applyLayersToSnapshot m layers) s3).
  generalize (state_of h (applyLayersToSnapshot m layers) s3).
  intros s4 atr Hatr.
  destruct err as [e|].
  - unfold out_of, trace_of, state_of. cbn [run fst snd deferred_arg].
    eexists. split; [reflexivity|].
    pose proof (applyDiffLayer_runs_apply_fails baseImg layers t b m e atr
                  (fst (h (Snap_Remove key) s4)) Hatr) as Hr.
    cbv zeta in Hr. fold key in Hr. norm_trace_in Hr. norm_trace. exact Hr.
  - rewrite out_bind, trace_bind, state_bind.
    destruct (createDiff_runs_sound key s4) as (res & Hcd & Hdtr).
    rewrite Hcd.
    generalize dependent (trace_of h (createDiff key) s4).
    generalize (state_of h (createDiff key) s4).
    intros s5 dtr Hdtr.
    destruct res as [[d id] [e|]].
    + unfold out_of, trace_of, state_of. cbn [run fst snd deferred_arg].
      eexists. split; [reflexivity|].
      pose proof (applyDiffLayer_runs_diff_fails baseImg layers t b m atr d id
                    e dtr (fst (h (Snap_Remove key) s5)) Hatr Hdtr) as Hr.
      cbv zeta in Hr. fold key in Hr. norm_trace_in Hr. norm_trace. exact Hr.
    + unfold out_of, trace_of, state_of. cbn [run fst snd deferred_arg].
      destruct (h (Snap_Commit _ key) s5) as [cerr s6]. cbn [fst snd].
      pose proof (fun r => applyDiffLayer_runs_commit baseImg layers t b m atr
                    d id dtr cerr r Hatr Hdtr) as Hr.
      cbv zeta in Hr. fold key in Hr. unfold commit_error, cleanup_trace in Hr.
      destruct cerr as [e|]; [destruct (IsAlreadyExists e)|];
        cbn [run fst snd deferred_arg];
        (eexists; split; [reflexivity|]);
        [specialize (Hr None) | specialize (Hr (fst (h (Snap_Remove key) s6)))
         | specialize (Hr None)];
        norm_trace_in Hr; norm_trace; exact Hr.
Qed.

End DifferRuns.

Section CommitCollision.
Context `{GoLibs} {S : Type} (h : handler S).

Lemma run_with_commit_applyLayersToSnapshot (c : goerror) (m : list Mount)
    (layers : list Descriptor) :
  forall s : S,
    run (with_commit c h) (applyLayersToSnapshot m layers) s
    = run h (applyLayersToSnapshot m layers) s.
Proof.
  induction layers as [|layer rest IH]; intros s; [reflexivity|].
  cbn [applyLayersToSnapshot bind call run fst snd with_commit].
  destruct (h (Differ_Apply layer m) s) as [[d|e] s1]; cbn [fst snd];
    [by rewrite IH | reflexivity].
Qed.

Lemma run_with_commit_createDiff (c : goerror) (key : string) (s : S) :
  run (with_commit c h) (createDiff key) s = run h (createDiff key) s.
Proof.
  unfold createDiff. cbn [bind call run fst snd with_commit].
  destruct (h (Rootfs_CreateDiff key) s) as [[newDesc|e] s1];
    cbn [fst snd run with_commit]; [|reflexivity].
  destruct (h (Content_Info (Digest_ newDesc)) s1) as [[info|e] s2];
    cbn [fst snd run]; [|reflexivity].
  destruct (ciLabels info !! "containerd.io/uncompressed"); [|reflexivity].
  by destruct (digest_Parse _).
Qed.

Lemma applyDiffLayer_with_commit (baseImg : Image) (layers : list Descriptor)
    (s : S) (e : error) :
  IsAlreadyExists e = true ->
  out_of (with_commit (Some e) h) (applyDiffLayer baseImg layers) s
  = out_of (with_commit None h) (applyDiffLayer baseImg layers) s.
Proof.
  intros Hae.
  unfold out_of, applyDiffLayer, uniquePart.
  cbn [bind call run fst snd with_commit].
  destruct (h Time_Now s) as [t s1]. cbn [fst snd].
  destruct (h Rand_Read3 s1) as [b s2]. cbn [fst snd].
  set (key := pretty (Nanosecond t) +:+ "-"
              +:+ base64_URLEncoding_EncodeToString b).
  destruct (h (Snap_Prepare key _) s2) as [[m|e0] s3]; cbn [fst snd run];
    [|reflexivity].
  rewrite !run_defer. cbv zeta. cbn [fst snd].
  rewrite !out_bind, !state_bind. unfold out_of, state_of.
  rewrite !run_with_commit_applyLayersToSnapshot.
  destruct (run h (applyLayersToSnapshot m layers) s3) as [[[err|msg] s4] atr];
    cbn [fst snd]; [|reflexivity].
  destruct err as [e0|].
  { cbn [run fst snd deferred_arg with_commit]. reflexivity. }
  rewrite !run_bind. unfold out_of, state_of, trace_of.
  rewrite !run_with_commit_createDiff.
  destruct (run h (createDiff key) s4) as [[[res|msg] s5] dtr];
    cbn [fst snd]; [|reflexivity].
  destruct res as [[d id] [e0|]];
    cbn [run fst snd deferred_arg with_commit]; [reflexivity|].
  rewrite Hae. reflexivity.
Qed.

End CommitCollision.

Ltac split_in H :=
  lazymatch type of H with
  | In _ (_ ++ _) =>
      apply in_app_or in H; destruct H as [H|H]; split_in H
  | In _ (cleanup_trace _ ?e _) =>
      destruct e; cbn [cleanup_trace] in H; split_in H
  | In _ (_ :: _) => destruct H as [H|H]; split_in H
  | In _ [] => destruct H
  | _ => idtac
  end.

Lemma apply_runs_kind (m : list Mount) (layers : list Descriptor)
    (err : goerror) (tr : list Entry) :
  apply_runs m layers err tr ->
  Forall (fun x => kind (ent_event x) = KApply) tr.
Proof. induction 1; repeat constructor; assumption. Qed.

Lemma createDiff_runs_kind `{GoLibs} (key : string)
    (res : Descriptor * Digest * goerror) (tr : list Entry) :
  createDiff_runs key res tr ->
  Forall (fun x => kind (ent_event x) = KDiff) tr.
Proof. destruct 1; repeat constructor. Qed.

(** A call that is not of kind [k] is not in a trace of calls of kind [k]. *)
Lemma not_in_kind (k : Kind) (tr : list Entry) (x : Entry) :
  Forall (fun y => kind (ent_event y) = k) tr ->
  kind (ent_event x) <> k -> ~ In x tr.
Proof.
  intros Hall Hx Hin. rewrite Forall_forall in Hall.
  apply Hx, Hall. by apply list_elem_of_In.
Qed.

(** C6. When the snapshot commit of applyDiffLayer is reached, the diff
    descriptor, the diffID and the chain-id snapshot name are fixed by the
    answers of CreateDiff and Info that came before it. With them,
    applyDiffLayer returns success when the commit succeeds and, just the
    same, when it fails with AlreadyExists; it returns any other commit error
    as its error. Moreover a run whose commits are answered by an
    AlreadyExists error returns what the same run returns when they are
    answered by success. *)
Theorem applyDiffLayer_commit_already_exists `{GoLibs} {S : Type}
    (h : handler S) (s : S) (baseImg : Image) (layers : list Descriptor) :
  (forall name key cerr,
     In (Ent (Snap_Commit name key) cerr)
        (trace_of h (applyDiffLayer baseImg layers) s) ->
     exists newDesc info diffIDStr diffID,
       In (Ent (Rootfs_CreateDiff key) (Ok newDesc))
          (trace_of h (applyDiffLayer baseImg layers) s) /\
       In (Ent (Content_Info (Digest_ newDesc)) (Ok info))
          (trace_of h (applyDiffLayer baseImg layers) s) /\
       ciLabels info !! "containerd.io/uncompressed" = Some diffIDStr /\
       digest_Parse diffIDStr = Ok diffID /\
       name = ChainID (DiffIDs (RootFS_ baseImg) ++ [diffID]) /\
       let diffLayerDesc :=
         mkDescriptor MediaTypeDockerSchema2LayerGzip (Digest_ newDesc)
           (ciSize info) in
       (cerr = None ->
        out_of h (applyDiffLayer baseImg layers) s
        = Returned (diffLayerDesc, diffID, name, None)) /\
       (forall e,
          cerr = Some e -> IsAlreadyExists e = true ->
          out_of h (applyDiffLayer baseImg layers) s
          = Returned (diffLayerDesc, diffID, name, None)) /\
       (forall e,
          cerr = Some e -> IsAlreadyExists e = false ->
          out_of h (applyDiffLayer baseImg layers) s
          = Returned (diffLayerDesc, diffID, name, Some e))) /\
  (forall e,
     IsAlreadyExists e = true ->
     out_of (with_commit (Some e) h) (applyDiffLayer baseImg layers) s
     = out_of (with_commit None h) (applyDiffLayer baseImg layers) s).
Proof.
  split; [|intros e; apply applyDiffLayer_with_commit].
  intros name key cerr Hin.
  destruct (applyDiffLayer_runs_sound h baseImg layers s)
    as (res & Hout & Hruns).
  rewrite Hout.
  destruct Hruns as [t b e|t b m e atr r key0 Hatr
                     |t b m atr d id e dtr r key0 Hatr Hdtr
                     |t b m atr d id dtr cerr0 r key0 sid Hatr Hdtr].
  - split_in Hin; apply (f_equal ent_event) in Hin; discriminate.
  - apply apply_runs_kind in Hatr.
    split_in Hin;
      try (apply (f_equal ent_event) in Hin; discriminate).
    by apply (not_in_kind _ _ _ Hatr) in Hin.
  - apply apply_runs_kind in Hatr. apply createDiff_runs_kind in Hdtr.
    split_in Hin;
      try (apply (f_equal ent_event) in Hin; discriminate).
    + by apply (not_in_kind _ _ _ Hatr) in Hin.
    + by apply (not_in_kind _ _ _ Hdtr) in Hin.
  - pose proof (apply_runs_kind _ _ _ _ Hatr) as Hka.
    pose proof (createDiff_runs_kind _ _ _ Hdtr) as Hkd.
    assert (Ent (Snap_Commit sid key0) cerr0 = Ent (Snap_Commit name key) cerr)
      as Heq.
    { split_in Hin;
        try (apply (f_equal ent_event) in Hin; discriminate);
        try assumption.
      - by apply (not_in_kind _ _ _ Hka) in Hin.
      - by apply (not_in_kind _ _ _ Hkd) in Hin. }
    clear Hin.
    pose proof (f_equal ent_event Heq) as Hev. cbn in Hev.
    injection Hev as Hname Hkey.
    pose proof (f_equal commit_answer Heq) as Hans. cbn in Hans.
    injection Hans as Hcerr. subst cerr0.
    inversion Hdtr as [| | | |newDesc info diffIDStr diffID Hlabel Hparse];
      subst.
    exists newDesc, info, diffIDStr, id.
    split; [apply in_or_app; right; apply in_or_app; right;
            apply in_or_app; left; by left|].
    split; [apply in_or_app; right; apply in_or_app; right;
            apply in_or_app; left; right; by left|].
    split; [exact Hlabel|]. split; [exact Hparse|]. split; [reflexivity|].
    cbv zeta. unfold commit_error.
    split; [by intros ->|].
    split; intros e -> ->; reflexivity.
Qed.

Example uniquePart_example :
  out_of (worldHandler exWorld) uniquePart 0%nat = Returned "123456789-AQID".
Proof. reflexivity. Qed.

Lemma applyDiffLayer_commit_already_exists_witness :
  exists d id,
    out_of (worldHandler exCollision)
      (applyDiffLayer (H := exLibs) exConfig [layerB; layerC]) 0%nat
    = Returned
        (d, id,
         ChainID (H := exLibs) (DiffIDs (RootFS_ exConfig) ++ ["sha256:dnew"]),
         None).
Proof.
  destruct (proj1 (applyDiffLayer_commit_already_exists (H := exLibs)
                     (worldHandler exCollision) 0%nat exConfig
                     [layerB; layerC])
              (ChainID (H := exLibs)
                 (DiffIDs (RootFS_ exConfig) ++ ["sha256:dnew"]))
              "123456789-AQID"
              (Some (Errorf_w "snapshot" ErrAlreadyExists)))
    as (newDesc & info & diffIDStr & diffID & _ & _ & _ & _ & _ & _ & Hae & _).
  - vm_compute. do 7 right. left. reflexivity.
  - eexists _, _. exact (Hae _ eq_refl eq_refl).
Defined.

(** ** The pipeline: what each stage leaves in the trace *)

Lemma quiet_fails_with (err : goerror) (tr : list Entry) :
  quiet tr -> fails_with err tr.
Proof.
  intros Hq. eapply Forall_impl; [exact Hq|].
  intros x Hx. unfold accounted. by rewrite Hx.
Qed.

Lemma fails_with_None (tr : list Entry) : fails_with None tr -> quiet tr.
Proof.
  intros Hf. eapply Forall_impl; [exact Hf|].
  intros x. unfold accounted. by destruct (entry_error x).
Qed.

Lemma only_kind (ks : list Kind) (tr : list Entry) (x : Entry) :
  only ks tr -> In x tr -> kind (ent_event x) ∈ ks.
Proof.
  intros Hall Hin. unfold only in Hall. rewrite Forall_forall in Hall.
  apply list_elem_of_In in Hin. apply Hall in Hin.
  by apply bool_decide_eq_true in Hin.
Qed.

Lemma only_no_image_write (ks : list Kind) (tr : list Entry) :
  only ks tr -> KImage ∉ ks -> no_image_write tr.
Proof.
  intros Hall Hk. eapply Forall_impl; [exact Hall|].
  intros x Hx. apply bool_decide_eq_true in Hx.
  apply bool_decide_eq_false. intros Heq. by rewrite Heq in Hx.
Qed.

Lemma only_no_blob_write (ks : list Kind) (tr : list Entry) :
  only ks tr -> KBlob ∉ ks -> no_blob_write tr.
Proof.
  intros Hall Hk. eapply Forall_impl; [exact Hall|].
  intros x Hx. apply bool_decide_eq_true in Hx.
  apply bool_decide_eq_false. intros Heq. by rewrite Heq in Hx.
Qed.

(** The clock, the image store and the unpacker are not stages whose
    failure is accounted for before the upsert. *)
Lemma only_clock_quiet (tr : list Entry) : only [KClock] tr -> quiet tr.
Proof.
  intros Hall. eapply Forall_impl; [exact Hall|].
  intros [e r] Hx. destruct e; try discriminate Hx; reflexivity.
Qed.

Lemma only_image_quiet (tr : list Entry) : only [KImage] tr -> quiet tr.
Proof.
  intros Hall. eapply Forall_impl; [exact Hall|].
  intros [e r] Hx. destruct e; try discriminate Hx; reflexivity.
Qed.

Lemma fails_with_wrap (msg : string) (e : error) (tr : list Entry) :
  fails_with (Some e) tr -> fails_with (Some (Errorf_w msg e)) tr.
Proof.
  intros Hf. eapply Forall_impl; [exact Hf|].
  intros x. unfold accounted.
  destruct (entry_error x); [|done]. by apply unwraps_step.
Qed.

Section Stages.
Context `{GoLibs} {S : Type} (h : handler S).

Lemma initImage_stage (opt : ImageSquashOptions) (s : S) :
  exists image err,
    out_of h (initImage opt) s = Returned (image, err) /\
    only [KRead] (trace_of h (initImage opt) s) /\
    fails_with err (trace_of h (initImage opt) s).
Proof.
  unfold out_of, trace_of, initImage. cbn [bind call run fst snd].
  destruct (h (ImageStore_Get _) s) as [[img|e] s1]; cbn [fst snd run].
  2: { eexists _, _. split; [reflexivity|].
       split; repeat constructor. }
  destruct (h (Imgutil_ReadManifest img) s1) as [[mf|e] s2];
    cbn [fst snd run].
  2: { eexists _, _. split; [reflexivity|].
       split; repeat constructor. }
  destruct (h (Imgutil_ReadImageConfig img) s2) as [[cfg|e] s3];
    cbn [fst snd run].
  2: { eexists _, _. split; [reflexivity|].
       split; repeat constructor. }
  eexists _, _. split; [reflexivity|]. split; repeat constructor.
Qed.

Lemma generateBaseImageConfig_stage (image : squashImage) (remaining : Z)
    (s : S) :
  only [KRead; KClock] (trace_of h (generateBaseImageConfig image remaining) s)
  /\
  match out_of h (generateBaseImageConfig image remaining) s with
  | Returned r =>
      fails_with (result_error r)
        (trace_of h (generateBaseImageConfig image remaining) s)
  | Panicked _ =>
      quiet (trace_of h (generateBaseImageConfig image remaining) s)
  end.
Proof.
  unfold out_of, trace_of, generateBaseImageConfig.
  cbn [bind call run fst snd].
  destruct (h (Imgutil_ReadImageConfig _) s) as [[orig|e] s1];
    cbn [fst snd run].
  2: { split; repeat constructor. }
  destruct (slice_to _ _); cbn [fst snd run]; split; repeat constructor.
Qed.

Lemma generateCommitImageConfig_stage (opt : ImageSquashOptions)
    (baseConfig : Image) (diffID : Digest) (s : S) :
  exists cfg,
    out_of h (generateCommitImageConfig opt baseConfig diffID) s
    = Returned (Ok cfg) /\
    only [KClock]
      (trace_of h (generateCommitImageConfig opt baseConfig diffID) s).
Proof.
  unfold out_of, trace_of, generateCommitImageConfig.
  cbn [bind call run fst snd].
  eexists. split; [reflexivity|]. repeat constructor.
Qed.

Lemma writeContentsForImage_stage (snName : string) (newConfig : Image)
    (baseImageLayers : list Descriptor) (diffLayerDesc : Descriptor) (s : S) :
  let p := writeContentsForImage snName newConfig baseImageLayers
             diffLayerDesc in
  exists r,
    out_of h p s = Returned r /\
    only [KBlob] (trace_of h p s) /\
    fails_with (result_error r) (trace_of h p s).
Proof.
  cbv zeta. unfold out_of, trace_of, writeContentsForImage.
  destruct (json_Marshal newConfig) as [newConfigJSON|e].
  2: { eexists. split; [reflexivity|]. split; constructor. }
  cbv zeta.
  destruct (json_MarshalIndent _) as [newMfstJSON|e].
  2: { eexists. split; [reflexivity|]. split; constructor. }
  cbn [bind call run fst snd].
  destruct (h (Content_WriteBlob _ _ _ _) s) as [[e|] s1]; cbn [fst snd run].
  { eexists. split; [reflexivity|]. split; repeat constructor. }
  destruct (h (Content_WriteBlob _ _ _ _) s1) as [[e|] s2]; cbn [fst snd run].
  { eexists. split; [reflexivity|]. split; repeat constructor. }
  eexists. split; [reflexivity|]. split; repeat constructor.
Qed.

Lemma createSquashImage_stage (img : ImagesImage) (s : S) :
  exists newImg err,
    out_of h (createSquashImage img) s = Returned (newImg, err) /\
    only [KImage] (trace_of h (createSquashImage img) s).
Proof.
  unfold out_of, trace_of, createSquashImage. cbn [bind call run fst snd].
  destruct (h (ImageStore_Update img) s) as [[newImg [uerr|]] s1];
    cbn [fst snd run].
  2: { eexists _, _. split; [reflexivity|]. repeat constructor. }
  destruct (IsNotFound uerr); cbn [negb run bind call fst snd].
  2: { eexists _, _. split; [reflexivity|]. repeat constructor. }
  destruct (h (ImageStore_Create img) s1) as [[c|cerr] s2]; cbn [fst snd run];
    eexists _, _; (split; [reflexivity|]); repeat constructor.
Qed.

End Stages.

Lemma kind_only (k : Kind) (ks : list Kind) (tr : list Entry) :
  Forall (fun x => kind (ent_event x) = k) tr -> k ∈ ks -> only ks tr.
Proof.
  intros Hall Hk. eapply Forall_impl; [exact Hall|].
  intros x ->. by apply bool_decide_eq_true.
Qed.

Lemma apply_runs_fails_with (m : list Mount) (layers : list Descriptor)
    (err : goerror) (tr : list Entry) :
  apply_runs m layers err tr -> fails_with err tr.
Proof. induction 1; repeat constructor; assumption. Qed.

Lemma apply_runs_failed (m : list Mount) (layers : list Descriptor)
    (err : goerror) (tr : list Entry) (layer : Descriptor) (m' : list Mount)
    (e : error) :
  apply_runs m layers err tr ->
  In (Ent (Differ_Apply layer m') (Err e)) tr ->
  err = Some e /\ m' = m.
Proof.
  induction 1 as [|l rest e0|l rest d err tr _ IH]; intros Hin.
  - destruct Hin.
  - destruct Hin as [Heq|[]].
    pose proof (f_equal entry_error Heq) as He. cbn in He.
    pose proof (f_equal ent_event Heq) as Hev. cbn in Hev.
    by inversion He; inversion Hev.
  - destruct Hin as [Heq|Hin]; [|by apply IH].
    pose proof (f_equal entry_error Heq) as He. discriminate He.
Qed.

Ltac solve_in :=
  repeat first [ rewrite in_app_iff | progress cbn [app In] ]; auto 20.

Ltac solve_trace :=
  repeat first
    [ apply Forall_app; split
    | apply Forall_cons; split
    | apply Forall_nil
    | assumption
    | reflexivity
    | exact I
    | progress cbn [cleanup_trace] ].

Section DifferStage.
Context `{GoLibs}.

Lemma createDiff_runs_fails_with (key : string) (d : Descriptor) (id : Digest)
    (err : goerror) (tr : list Entry) :
  createDiff_runs key (d, id, err) tr -> fails_with err tr.
Proof. inversion 1; subst; repeat constructor. Qed.

Lemma createDiff_runs_label (key : string) (d : Descriptor) (id : Digest)
    (err : goerror) (tr : list Entry) (dgst : Digest) (info : ContentInfo) :
  createDiff_runs key (d, id, err) tr ->
  In (Ent (Content_Info dgst) (Ok info)) tr ->
  bad_diffID_label info ->
  exists e, err = Some e.
Proof.
  intros Hruns Hin Hbad.
  inversion Hruns as [e|nd e|nd info0 Hl|nd info0 str e Hl Hp
                      |nd info0 str diffID Hl Hp]; subst;
    try (eexists; reflexivity).
  exfalso. split_in Hin.
  - apply (f_equal ent_event) in Hin. discriminate.
  - apply (f_equal info_answer) in Hin. cbn in Hin.
    injection Hin as <-. unfold bad_diffID_label in Hbad.
    rewrite Hl in Hbad. destruct Hbad as [e He]. congruence.
Qed.

Lemma applyDiffLayer_runs_stage (baseImg : Image) (layers : list Descriptor)
    (d : Descriptor) (id : Digest) (sid : string) (err : goerror)
    (tr : list Entry) :
  applyDiffLayer_runs baseImg layers (d, id, sid, err) tr ->
  only [KClock; KSnap; KApply; KDiff] tr /\
  fails_with err tr /\
  (forall layer m e,
     In (Ent (Differ_Apply layer m) (Err e)) tr ->
     err = Some e /\
     exists key parent r,
       In (Ent (Snap_Prepare key parent) (Ok m)) tr /\
       In (Ent (Snap_Remove key) r) tr) /\
  (forall dgst info,
     In (Ent (Content_Info dgst) (Ok info)) tr ->
     bad_diffID_label info ->
     exists e, err = Some (Errorf_w "failed to export layer" e)).
Proof.
  intros Hruns.
  inversion Hruns as [t b e|t b m e atr r key Hatr
                      |t b m atr d0 id0 e dtr r key Hatr Hdtr
                      |t b m atr d0 id0 dtr cerr r key snapshotID Hatr Hdtr];
    subst.
  - split; [solve_trace|]. split; [repeat constructor|].
    split.
    + intros layer m e0 Hin. split_in Hin;
        apply (f_equal ent_event) in Hin; discriminate.
    + intros dgst info Hin _. split_in Hin;
        apply (f_equal ent_event) in Hin; discriminate.
  - pose proof (apply_runs_kind _ _ _ _ Hatr) as Hka.
    pose proof (apply_runs_fails_with _ _ _ _ Hatr) as Hfa.
    split; [solve_trace; by apply (kind_only KApply); [|repeat constructor]|].
    split; [unfold fails_with; solve_trace|].
    split.
    + intros layer m0 e0 Hin. split_in Hin;
        try (apply (f_equal ent_event) in Hin; discriminate).
      destruct (apply_runs_failed _ _ _ _ _ _ _ Hatr Hin) as [Heq ->].
      split; [exact Heq|]. exists key, (ChainID (DiffIDs (RootFS_ baseImg))), r.
      split; solve_in.
    + intros dgst info Hin _. split_in Hin;
        try (apply (f_equal ent_event) in Hin; discriminate).
      by apply (not_in_kind _ _ _ Hka) in Hin.
  - pose proof (apply_runs_kind _ _ _ _ Hatr) as Hka.
    pose proof (fails_with_None _ (apply_runs_fails_with _ _ _ _ Hatr)) as Hqa.
    pose proof (createDiff_runs_kind _ _ _ Hdtr) as Hkd.
    pose proof (createDiff_runs_fails_with _ _ _ _ _ Hdtr) as Hfd.
    split; [solve_trace;
            [by apply (kind_only KApply); [|repeat constructor]
            |by apply (kind_only KDiff); [|repeat constructor]]|].
    split; [unfold fails_with; solve_trace;
            [by apply quiet_fails_with | by apply fails_with_wrap]|].
    split.
    + intros layer m0 e0 Hin. split_in Hin;
        try (apply (f_equal ent_event) in Hin; discriminate).
      * destruct (apply_runs_failed _ _ _ _ _ _ _ Hatr Hin) as [Heq _].
        discriminate.
      * by apply (not_in_kind _ _ _ Hkd) in Hin.
    + intros dgst info _ _. eexists. reflexivity.
  - pose proof (apply_runs_kind _ _ _ _ Hatr) as Hka.
    pose proof (fails_with_None _ (apply_runs_fails_with _ _ _ _ Hatr)) as Hqa.
    pose proof (createDiff_runs_kind _ _ _ Hdtr) as Hkd.
    pose proof (fails_with_None _ (createDiff_runs_fails_with _ _ _ _ _ Hdtr))
      as Hqd.
    split; [solve_trace;
            [by apply (kind_only KApply); [|repeat constructor]
            |by apply (kind_only KDiff); [|repeat constructor]
            |destruct (commit_error cerr); solve_trace]|].
    split.
    { unfold fails_with. solve_trace.
      - by apply quiet_fails_with.
      - by apply quiet_fails_with.
      - unfold accounted, commit_error. cbn.
        destruct cerr as [e|]; [|exact I].
        destruct (IsAlreadyExists e); [exact I | constructor].
      - destruct (commit_error cerr); solve_trace. }
    split.
    + intros layer m0 e0 Hin. split_in Hin;
        try (apply (f_equal ent_event) in Hin; discriminate).
      * destruct (apply_runs_failed _ _ _ _ _ _ _ Hatr Hin) as [Heq _].
        discriminate.
      * by apply (not_in_kind _ _ _ Hkd) in Hin.
    + intros dgst info Hin Hbad. exfalso. split_in Hin;
        try (apply (f_equal ent_event) in Hin; discriminate).
      * by apply (not_in_kind _ _ _ Hka) in Hin.
      * destruct (createDiff_runs_label _ _ _ _ _ _ _ Hdtr Hin Hbad) as [e He].
        discriminate.
Qed.

End DifferStage.

(** ** The pipeline *)

Ltac not_in_kinds :=
  let Hk := fresh "Hk" in
  intros Hk;
  repeat (apply elem_of_cons in Hk as [Hk|Hk]; [discriminate Hk|]);
  by apply elem_of_nil in Hk.

Ltac kind_contra :=
  match goal with
  | Hk : only ?ks ?T, Hin : In _ ?T |- _ =>
      apply (only_kind _ _ _ Hk) in Hin; cbn in Hin;
      repeat (apply elem_of_cons in Hin as [Hin|Hin]; [discriminate Hin|]);
      by apply elem_of_nil in Hin
  end.

Ltac quiet_contra :=
  match goal with
  | Hq : quiet ?T, Hin : In _ ?T |- _ =>
      unfold quiet in Hq; rewrite Forall_forall in Hq;
      apply list_elem_of_In, Hq in Hin; discriminate Hin
  end.

Ltac event_contra :=
  match goal with
  | Hin : @eq Entry _ _ |- _ =>
      apply (f_equal ent_event) in Hin; discriminate Hin
  end.

Ltac segments tac :=
  repeat first
    [ apply Forall_app; split | apply Forall_cons; split | apply Forall_nil ];
  tac.

Ltac solve_quiet :=
  unfold quiet;
  segments ltac:(first [ assumption | reflexivity ]).

Ltac solve_fails_with :=
  unfold fails_with;
  segments ltac:(first [ assumption
                       | by apply quiet_fails_with
                       | by apply fails_with_wrap
                       | by unfold accounted; cbn; repeat constructor ]).

Ltac solve_no_image_write :=
  unfold no_image_write;
  segments ltac:(first [ reflexivity
                       | by eapply only_no_image_write;
                         [eassumption | not_in_kinds] ]).

Ltac solve_no_blob_write :=
  unfold no_blob_write;
  segments ltac:(first [ reflexivity
                       | by eapply only_no_blob_write;
                         [eassumption | not_in_kinds] ]).

(** A trace with no failed Apply and no unusable differ answer. *)
Ltac no_such_call Hin :=
  split_in Hin; first [ event_contra | kind_contra | quiet_contra ].

Section Pipeline.
Context `{GoLibs} {S : Type} (h : handler S).

Lemma aborts_cleanly_quiet (out : outcome goerror) (tr : list Entry) :
  quiet tr ->
  (forall dgst info,
     In (Ent (Content_Info dgst) (Ok info)) tr -> ~ bad_diffID_label info) ->
  aborts_cleanly out tr.
Proof.
  intros Hq Hgood. unfold quiet in Hq. rewrite Forall_forall in Hq.
  split; [|split].
  - intros x e Hin He. apply list_elem_of_In, Hq in Hin. congruence.
  - intros layer m e Hin. apply list_elem_of_In, Hq in Hin. discriminate.
  - intros dgst info Hin Hbad. by destruct (Hgood _ _ Hin).
Qed.

Lemma aborts_cleanly_failed (e' : error) (tr : list Entry) :
  fails_with (Some e') tr ->
  no_image_write tr ->
  (forall layer m e,
     In (Ent (Differ_Apply layer m) (Err e)) tr ->
     e' = e /\
     (exists key parent r,
        In (Ent (Snap_Prepare key parent) (Ok m)) tr /\
        In (Ent (Snap_Remove key) r) tr) /\
     no_blob_write tr) ->
  (forall dgst info,
     In (Ent (Content_Info dgst) (Ok info)) tr ->
     bad_diffID_label info ->
     exists e, e' = Errorf_w "failed to export layer" e) ->
  aborts_cleanly (Returned (Some e')) tr.
Proof.
  intros Hf Himg Happly Hlabel. unfold fails_with in Hf.
  rewrite Forall_forall in Hf.
  split; [|split].
  - intros x e Hin He. split; [|exact Himg].
    apply list_elem_of_In, Hf in Hin. unfold accounted in Hin.
    rewrite He in Hin. eauto.
  - intros layer m e Hin.
    destruct (Happly _ _ _ Hin) as (-> & Hrm & Hblob). auto.
  - intros dgst info Hin Hbad.
    destruct (Hlabel _ _ Hin Hbad) as [e ->]. eauto.
Qed.

Lemma run_bind_inv {A B} (p : Prog A) (f : A -> Prog B) (s st : S)
    (o : outcome B) (t : list Entry) :
  run h (bind p f) s = (o, st, t) ->
  match out_of h p s with
  | Returned a =>
      exists t',
        run h (f a) (state_of h p s) = (o, st, t') /\
        t = trace_of h p s ++ t'
  | Panicked msg => o = Panicked msg /\ t = trace_of h p s
  end.
Proof.
  rewrite run_bind. destruct (out_of h p s) as [a|msg].
  - intros Heq. exists (trace_of h (f a) (state_of h p s)).
    unfold out_of, state_of, trace_of in *.
    destruct (run h (f a) _) as [[??]?]. cbn [fst snd] in *.
    by inversion Heq.
  - intros Heq. by inversion Heq.
Qed.

Lemma run_ret_inv {A} (a : A) (s st : S) (o : outcome A) (t : list Entry) :
  run h (Ret a) s = (o, st, t) -> o = Returned a /\ t = [].
Proof. cbn [run]. intros Heq. by inversion Heq. Qed.

Lemma run_panic_inv {A} (msg : string) (s st : S) (o : outcome A)
    (t : list Entry) :
  run h (Panic msg) s = (o, st, t) -> o = Panicked msg /\ t = [].
Proof. cbn [run]. intros Heq. by inversion Heq. Qed.

(** The lease is released by the deferred call, whatever the body did. *)
Lemma run_release_inv (p : Prog goerror) (s st : S) (o : outcome goerror)
    (t : list Entry) :
  run h (defer (fun _ => _ <- call Lease_Done ;; Ret tt) p) s = (o, st, t) ->
  exists r,
    o = out_of h p s /\ t = trace_of h p s ++ [Ent Lease_Done r].
Proof.
  rewrite run_defer. cbv zeta. unfold out_of, state_of, trace_of.
  cbn [bind call run fst snd]. intros Heq. inversion Heq. eauto.
Qed.

Lemma Squash_aborts_cleanly (opt : ImageSquashOptions) (s : S) :
  aborts_cleanly (out_of h (Squash opt) s) (trace_of h (Squash opt) s).
Proof.
  unfold out_of, trace_of.
  destruct (run h (Squash opt) s) as [[o st] t] eqn:Hrun. cbn [fst snd].
  unfold Squash in Hrun.
  (* initImage *)
  apply run_bind_inv in Hrun.
  destruct (initImage_stage h opt s) as (image & err0 & Hout0 & Hk0 & Hf0).
  rewrite Hout0 in Hrun. destruct Hrun as (t1 & Hrun & ->).
  generalize dependent (trace_of h (initImage opt) s).
  generalize dependent (state_of h (initImage opt) s). intros s0 Hrun T0 Hk0 Hf0.
  destruct err0 as [e0|].
  { apply run_ret_inv in Hrun as [-> ->]. apply aborts_cleanly_failed;
         [solve_fails_with | solve_no_image_write
         | intros layer m0 e1 Hin; no_such_call Hin
         | intros dgst info Hin Hbad; no_such_call Hin]. }
  apply fails_with_None in Hf0.
  (* generateSquashLayer *)
  destruct (generateSquashLayer opt image) as [sLayers|e].
  2: { apply run_ret_inv in Hrun as [-> ->]. apply aborts_cleanly_failed;
         [solve_fails_with | solve_no_image_write
         | intros layer m0 e1 Hin; no_such_call Hin
         | intros dgst info Hin Hbad; no_such_call Hin]. }
  (* the lease *)
  apply run_bind_inv in Hrun.
  unfold out_of, state_of, trace_of in Hrun. cbn [call run fst snd] in Hrun.
  destruct Hrun as (t2 & Hrun & ->).
  destruct (h Client_WithLease s0) as [[e|] s1]; cbn [fst snd] in Hrun |- *.
  { apply run_ret_inv in Hrun as [-> ->]. apply aborts_cleanly_failed;
         [solve_fails_with | solve_no_image_write
         | intros layer m0 e1 Hin; no_such_call Hin
         | intros dgst info Hin Hbad; no_such_call Hin]. }
  apply run_release_inv in Hrun as (rel & -> & ->).
  unfold out_of, trace_of.
  lazymatch goal with
  | |- context [run h ?p s1] =>
      destruct (run h p s1) as [[o sb] t] eqn:Hrun
  end.
  cbn [fst snd].
  (* generateBaseImageConfig *)
  apply run_bind_inv in Hrun.
  destruct (generateBaseImageConfig_stage h image
              (len (Layers (siManifest image)) - len sLayers) s1)
    as (Hkb & Hfb).
  generalize dependent (trace_of h (generateBaseImageConfig image
              (len (Layers (siManifest image)) - len sLayers)) s1).
  generalize dependent (state_of h (generateBaseImageConfig image
              (len (Layers (siManifest image)) - len sLayers)) s1).
  destruct (out_of h (generateBaseImageConfig image _) s1) as [[baseImage|e]|msg];
    intros s2 Tb Hrun Hkb Hfb.
  3: { destruct Hrun as [-> ->]. apply aborts_cleanly_quiet;
         [solve_quiet | intros dgst info Hin Hbad; no_such_call Hin]. }
  2: { destruct Hrun as (t3 & Hrun & ->).
       apply run_ret_inv in Hrun as [-> ->]. apply aborts_cleanly_failed;
         [solve_fails_with | solve_no_image_write
         | intros layer m0 e1 Hin; no_such_call Hin
         | intros dgst info Hin Hbad; no_such_call Hin]. }
  destruct Hrun as (t3 & Hrun & ->). apply fails_with_None in Hfb.
  (* applyDiffLayer *)
  apply run_bind_inv in Hrun.
  destruct (applyDiffLayer_runs_sound h baseImage sLayers s2)
    as ([[[d id] sid] erra] & Houta & Hrunsa).
  rewrite Houta in Hrun. destruct Hrun as (t4 & Hrun & ->).
  apply applyDiffLayer_runs_stage in Hrunsa as (Hka & Hfa & Hap & Hlab).
  generalize dependent (trace_of h (applyDiffLayer baseImage sLayers) s2).
  generalize dependent (state_of h (applyDiffLayer baseImage sLayers) s2).
  intros s3 Hrun Ta Hka Hfa Hap Hlab.
  destruct erra as [e|].
  { apply run_ret_inv in Hrun as [-> ->].
    apply aborts_cleanly_failed;
      [solve_fails_with | solve_no_image_write | |].
    - intros layer m0 e1 Hin.
      assert (In (Ent (Differ_Apply layer m0) (Err e1)) Ta) as HinA
        by (split_in Hin;
            first [ assumption | event_contra | kind_contra | quiet_contra ]).
      destruct (Hap _ _ _ HinA) as (Heq & key & parent & r & Hprep & Hrem).
      split; [congruence|].
      split; [exists key, parent, r; split; solve_in | solve_no_blob_write].
    - intros dgst info Hin Hbad.
      assert (In (Ent (Content_Info dgst) (Ok info)) Ta) as HinA
        by (split_in Hin;
            first [ assumption | event_contra | kind_contra | quiet_contra ]).
      destruct (Hlab _ _ HinA Hbad) as [e1 Heq]. exists e1. congruence. }
  assert (forall dgst info,
            In (Ent (Content_Info dgst) (Ok info)) Ta ->
            bad_diffID_label info -> False) as Hgood.
  { intros dgst info Hin Hbad. destruct (Hlab _ _ Hin Hbad). discriminate. }
  clear Hap Hlab.
  apply fails_with_None in Hfa.
  (* generateCommitImageConfig *)
  apply run_bind_inv in Hrun.
  destruct (generateCommitImageConfig_stage h opt baseImage id s3)
    as (imageConfig & Houtc & Hkc).
  rewrite Houtc in Hrun. destruct Hrun as (t5 & Hrun & ->).
  generalize dependent (trace_of h (generateCommitImageConfig opt baseImage id) s3).
  generalize dependent (state_of h (generateCommitImageConfig opt baseImage id) s3).
  intros s4 Hrun Tc Hkc.
  pose proof (only_clock_quiet _ Hkc) as Hqc.
  destruct (slice_to _ _) as [baseImageLayers|].
  2: { apply run_panic_inv in Hrun as [-> ->]. apply aborts_cleanly_quiet;
         [solve_quiet
         | intros dgst info Hin Hbad; split_in Hin;
           first [ event_contra | kind_contra | by eapply Hgood ] ]. }
  (* writeContentsForImage *)
  apply run_bind_inv in Hrun.
  destruct (writeContentsForImage_stage h (Snapshotter (GOptions opt))
              imageConfig baseImageLayers d s4) as (rw & Houtw & Hkw & Hfw).
  rewrite Houtw in Hrun. destruct Hrun as (t6 & Hrun & ->).
  generalize dependent (trace_of h (writeContentsForImage
              (Snapshotter (GOptions opt)) imageConfig baseImageLayers d) s4).
  generalize dependent (state_of h (writeContentsForImage
              (Snapshotter (GOptions opt)) imageConfig baseImageLayers d) s4).
  intros s5 Hrun Tw Hkw Hfw.
  destruct rw as [[commitManifestDesc cd]|e].
  2: { apply run_ret_inv in Hrun as [-> ->]. apply aborts_cleanly_failed;
         [solve_fails_with | solve_no_image_write
         | intros layer m0 e1 Hin; no_such_call Hin
         | intros dgst info Hin Hbad; split_in Hin;
           first [ event_contra | kind_contra | by edestruct Hgood ] ]. }
  apply fails_with_None in Hfw.
  (* the clock, createSquashImage, Unpack *)
  apply run_bind_inv in Hrun.
  unfold out_of at 1, state_of at 1, trace_of at 1 in Hrun.
  cbn [call run fst snd] in Hrun. destruct Hrun as (t7 & Hrun & ->).
  destruct (h Time_Now s5) as [now s6]; cbn [fst snd] in Hrun |- *.
  apply run_bind_inv in Hrun.
  set (nimg := mkImagesImage _ _ _ _ _) in *.
  destruct (createSquashImage_stage h nimg s6) as (newImg & erru & Houtu & Hku).
  rewrite Houtu in Hrun. destruct Hrun as (t8 & Hrun & ->).
  generalize dependent (trace_of h (createSquashImage nimg) s6).
  generalize dependent (state_of h (createSquashImage nimg) s6).
  intros s7 Hrun Tu Hku.
  pose proof (only_image_quiet _ Hku) as Hqu.
  destruct erru as [e|].
  { apply run_ret_inv in Hrun as [-> ->]. apply aborts_cleanly_quiet;
         [solve_quiet
         | intros dgst info Hin Hbad; split_in Hin;
           first [ event_contra | kind_contra | by eapply Hgood ] ]. }
  apply run_bind_inv in Hrun.
  unfold out_of, state_of, trace_of in Hrun. cbn [call run fst snd] in Hrun.
  destruct Hrun as (t9 & Hrun & ->).
  destruct (h (Image_Unpack _ _) s7) as [[e|] s8]; cbn [fst snd] in Hrun |- *;
    apply run_ret_inv in Hrun as [-> ->];
    (apply aborts_cleanly_quiet;
       [solve_quiet
       | intros dgst info Hin Hbad; split_in Hin;
         first [ event_contra | kind_contra | by eapply Hgood ] ]).
Qed.
End Pipeline.

(** C5. A failure before the image-record upsert makes the pipeline return
    that error, and no image record is written. Here [tr] is the sequence of
    collaborator calls of a run of the pipeline and [out] what it returns.
    - Whenever a call of a stage before the upsert fails (reading the source,
      acquiring the lease, reading the config for the base config, Prepare,
      Apply, CreateDiff, Info, a Commit failing with anything but
      AlreadyExists, either WriteBlob), the pipeline returns that error, as
      it is or wrapped with context, and the trace has no image store Update
      or Create.
    - When the layer selection fails, the pipeline returns its error after
      the calls of initImage alone.
    - When an Apply fails, the pipeline returns the Apply error itself, a
      Remove of the scratch snapshot that Prepare made is in the trace, and
      the trace has no WriteBlob and no Update or Create.
    - When the differ's answer has no usable uncompressed-digest label, the
      pipeline returns the export error and writes no image record. *)
Theorem Squash_failure_before_upsert `{GoLibs} {S : Type} (h : handler S)
    (s : S) (opt : ImageSquashOptions) :
  let out := out_of h (Squash opt) s in
  let tr := trace_of h (Squash opt) s in
  (forall x e,
     In x tr -> entry_error x = Some e ->
     (exists e', out = Returned (Some e') /\ unwraps e' e) /\
     no_image_write tr) /\
  (forall image e,
     out_of h (initImage opt) s = Returned (image, None) ->
     generateSquashLayer opt image = Err e ->
     out = Returned (Some e) /\
     tr = trace_of h (initImage opt) s /\
     no_image_write tr) /\
  (forall layer m e,
     In (Ent (Differ_Apply layer m) (Err e)) tr ->
     out = Returned (Some e) /\
     (exists key parent r,
        In (Ent (Snap_Prepare key parent) (Ok m)) tr /\
        In (Ent (Snap_Remove key) r) tr) /\
     no_blob_write tr /\ no_image_write tr) /\
  (forall dgst info,
     In (Ent (Content_Info dgst) (Ok info)) tr ->
     bad_diffID_label info ->
     (exists e, out = Returned (Some (Errorf_w "failed to export layer" e))) /\
     no_image_write tr).
Proof.
  intros out tr.
  destruct (Squash_aborts_cleanly h opt s) as (Hcall & Happly & Hlabel).
  split; [exact Hcall|]. split; [|split; [exact Happly | exact Hlabel]].
  intros image e Hinit Hsel.
  destruct (initImage_stage h opt s) as (image' & err & Hout & Hkind & _).
  assert (run h (Squash opt) s
          = (Returned (Some e), state_of h (initImage opt) s,
             trace_of h (initImage opt) s)) as Hrun.
  { unfold Squash. rewrite run_bind, Hinit, Hsel.
    unfold out_of, state_of, trace_of. cbn [run fst snd].
    by rewrite app_nil_r. }
  assert (trace_of h (Squash opt) s = trace_of h (initImage opt) s) as Htr
    by (unfold trace_of at 1; by rewrite Hrun).
  subst out tr. split; [unfold out_of; by rewrite Hrun|].
  split; [exact Htr|]. rewrite Htr.
  eapply only_no_image_write; [exact Hkind | not_in_kinds].
Qed.

Lemma Squash_failure_before_upsert_witness :
  out_of (worldHandler exApplyFails) (Squash (H := exLibs) (exOptions 3 ""))
    0%nat
  = Returned (Some (errors_New "apply failed")) /\
  (exists key parent r,
     In (Ent (Snap_Prepare key parent) (Ok [mkMount "overlay" "overlay" []]))
        (trace_of (worldHandler exApplyFails)
           (Squash (H := exLibs) (exOptions 3 "")) 0%nat) /\
     In (Ent (Snap_Remove key) r)
        (trace_of (worldHandler exApplyFails)
           (Squash (H := exLibs) (exOptions 3 "")) 0%nat)) /\
  no_blob_write
    (trace_of (worldHandler exApplyFails)
       (Squash (H := exLibs) (exOptions 3 "")) 0%nat) /\
  no_image_write
    (trace_of (worldHandler exApplyFails)
       (Squash (H := exLibs) (exOptions 3 "")) 0%nat).
Proof.
  apply (proj1 (proj2 (proj2
           (Squash_failure_before_upsert (H := exLibs)
              (worldHandler exApplyFails) 0%nat (exOptions 3 ""))))
           layerB [mkMount "overlay" "overlay" []] (errors_New "apply failed")).
  vm_compute. repeat first [ left; reflexivity | right ].
Defined.

(** The calls of that run: the first layer is applied, the second Apply
    fails, the scratch snapshot is removed and the lease released. *)
Example Squash_apply_failure_trace :
  map ent_event
    (trace_of (worldHandler exApplyFails)
       (Squash (H := exLibs) (exOptions 3 "")) 0%nat)
  = [ImageStore_Get "app:latest";
     Imgutil_ReadManifest exRecord;
     Imgutil_ReadImageConfig exRecord;
     Client_WithLease;
     Imgutil_ReadImageConfig exRecord;
     Time_Now; Time_Now; Rand_Read3;
     Snap_Prepare "123456789-AQID" "";
     Differ_Apply layerA [mkMount "overlay" "overlay" []];
     Differ_Apply layerB [mkMount "overlay" "overlay" []];
     Snap_Remove "123456789-AQID";
     Lease_Done].
Proof. vm_compute. reflexivity. Qed.

(** A successful run ends with the upsert and the unpack. *)
Example Squash_success :
  out_of (worldHandler exWorld) (Squash (H := exLibs) (exOptions 2 "")) 0%nat
  = Returned None /\
  map (fun x => kind (ent_event x))
    (trace_of (worldHandler exWorld)
       (Squash (H := exLibs) (exOptions 2 "")) 0%nat)
  = [KRead; KRead; KRead; KLease; KRead; KClock; KClock; KClock; KSnap;
     KApply; KApply; KDiff; KDiff; KSnap; KClock; KBlob; KBlob; KClock;
     KImage; KUnpack; KRelease].
Proof. split; vm_compute; reflexivity. Qed.

(** * Further properties of the code *)

(** ** Layer selection *)

(** A successful selection splits the layers into a retained prefix and the
    selected, non-empty suffix. *)
Lemma generateSquashLayer_Ok_split (opt : ImageSquashOptions)
    (image : squashImage) (sLayers : list Descriptor) :
  generateSquashLayer opt image = Ok sLayers ->
  exists retained,
    Layers (siManifest image) = retained ++ sLayers /\ sLayers <> [].
Proof.
  intros Hsel.
  unfold generateSquashLayer in Hsel.
  destruct (decide (SquashLayerDigest opt <> "")) as [Hd|Hd].
  - destruct (first_match_split opt (Layers (siManifest image)))
      as [Hno | (pre & d & post & Hl & Hpre & Hm)].
    + rewrite (generateSquashLayer_loop_none opt) in Hsel by assumption.
      discriminate Hsel.
    + rewrite Hl, (generateSquashLayer_loop_first opt) in Hsel
        by assumption.
      inversion Hsel; subst sLayers. exists pre. by split.
  - destruct ((1 <? SquashLayerCount opt)
              && (SquashLayerCount opt <=? len (Layers (siManifest image))))
      eqn:Hrange; [|discriminate Hsel].
    apply andb_true_iff in Hrange as [H1 H2].
    apply Z.ltb_lt in H1. apply Z.leb_le in H2.
    inversion Hsel as [Hs].
    exists (take (Z.to_nat (len (Layers (siManifest image))
                              - SquashLayerCount opt))
              (Layers (siManifest image))).
    split; [by rewrite take_drop|].
    intros Hnil. apply (f_equal (@length _)) in Hnil.
    rewrite length_drop in Hnil. unfold len in *. simpl in Hnil. lia.
Qed.

(** X1. Whatever the selector, a successful layer selection is a non-empty
    suffix of the manifest's layers: the layers split into the retained ones
    followed by the selected ones, at least one layer is selected, and the
    retained count [len layers - len selected] that the pipeline computes is
    the number of retained layers and lies in [0, len layers). *)
Theorem generateSquashLayer_selects_suffix (opt : ImageSquashOptions)
    (image : squashImage) (sLayers : list Descriptor) :
  generateSquashLayer opt image = Ok sLayers ->
  exists retained,
    Layers (siManifest image) = retained ++ sLayers /\
    sLayers <> [] /\
    len retained = len (Layers (siManifest image)) - len sLayers /\
    0 <= len (Layers (siManifest image)) - len sLayers
      < len (Layers (siManifest image)).
Proof.
  intros Hsel.
  destruct (generateSquashLayer_Ok_split opt image sLayers Hsel)
    as (retained & Hsplit & Hne).
  exists retained. split; [exact Hsplit|]. split; [exact Hne|].
  unfold len. rewrite Hsplit, length_app.
  destruct sLayers; [congruence|]. simpl. lia.
Qed.

Lemma generateSquashLayer_selects_suffix_witness :
  exists retained,
    Layers (siManifest exImage) = retained ++ [layerB; layerC] /\
    [layerB; layerC] <> [] /\
    len retained = len (Layers (siManifest exImage)) - len [layerB; layerC] /\
    0 <= len (Layers (siManifest exImage)) - len [layerB; layerC]
      < len (Layers (siManifest exImage)).
Proof.
  apply (generateSquashLayer_selects_suffix (exOptions 2 "") exImage).
  reflexivity.
Defined.

(** ** Config rewriting *)


(** X3. The base config derivation keeps the config invariant: when the
    original config has one non-empty-layer history entry for each diffID
    and [0 <= remaining <= len diffIDs], the base config has exactly
    [remaining] diffIDs and exactly [remaining] non-empty-layer history
    entries. *)
Theorem generateBaseImageConfig_keeps_invariant {S : Type} (h : handler S)
    (s : S) (image : squashImage) (remaining : Z) (orig : Image) :
  fst (h (Imgutil_ReadImageConfig (ClientImage image)) s) = Ok orig ->
  0 <= remaining <= len (DiffIDs (RootFS_ orig)) ->
  history_matches_layers orig ->
  exists cfg,
    out_of h (generateBaseImageConfig image remaining) s = Returned (Ok cfg) /\
    history_matches_layers cfg /\
    len (DiffIDs (RootFS_ cfg)) = remaining /\
    len (nonEmptyLayers (History_ cfg)) = remaining.
Proof.
  intros Hread Hrange Hinv.
  destruct (generateBaseImageConfig_loop_spec (History_ orig) remaining [] 0)
    as (kept & dropped & Hsplit & Hloop & Hle & Hd); [lia|].
  simpl in Hloop.
  assert (len (nonEmptyLayers kept) = remaining) as Hkept.
  { destruct Hd as [->|(h0 & r & _ & _ & Heq)]; [|lia].
    rewrite app_nil_r in Hsplit. subst kept.
    unfold history_matches_layers in Hinv. lia. }
  unfold out_of, generateBaseImageConfig. simpl.
  destruct (h (Imgutil_ReadImageConfig (ClientImage image)) s) as [r s1].
  simpl in Hread. subst r. simpl. unfold slice_to.
  assert ((0 <=? remaining)
          && (remaining <=? Z.of_nat (length (DiffIDs (RootFS_ orig)))) = true)
    as ->.
  { apply andb_true_iff. unfold len in Hrange.
    split; apply Z.leb_le; lia. }
  simpl. eexists. split; [reflexivity|].
  unfold history_matches_layers. simpl. rewrite Hloop.
  assert (len (take (Z.to_nat remaining) (DiffIDs (RootFS_ orig))) = remaining)
    as Htake by (unfold len in *; rewrite length_take; lia).
  repeat split; lia.
Qed.

Lemma generateBaseImageConfig_keeps_invariant_witness :
  exists cfg,
    out_of (worldHandler exWorld) (generateBaseImageConfig exImage 1) 0%nat
    = Returned (Ok cfg) /\
    history_matches_layers cfg /\
    len (DiffIDs (RootFS_ cfg)) = 1 /\
    len (nonEmptyLayers (History_ cfg)) = 1.
Proof.
  apply (generateBaseImageConfig_keeps_invariant (worldHandler exWorld)
           0%nat exImage 1 exConfig).
  - reflexivity.
  - unfold len. simpl. lia.
  - reflexivity.
Defined.

(** X4. The commit config derivation keeps the config invariant and adds
    exactly one layer: from a base config with one non-empty-layer history
    entry for each diffID it returns a config with one more diffID and one
    more non-empty-layer entry, and it never fails. *)
Theorem generateCommitImageConfig_keeps_invariant `{GoLibs} {S : Type}
    (h : handler S) (s : S) (opt : ImageSquashOptions) (baseConfig : Image)
    (diffID : Digest) :
  history_matches_layers baseConfig ->
  exists cfg,
    out_of h (generateCommitImageConfig opt baseConfig diffID) s
    = Returned (Ok cfg) /\
    history_matches_layers cfg /\
    len (DiffIDs (RootFS_ cfg)) = len (DiffIDs (RootFS_ baseConfig)) + 1 /\
    emptyLayers (History_ cfg) = emptyLayers (History_ baseConfig).
Proof.
  intros Hinv. unfold out_of, generateCommitImageConfig. simpl.
  eexists. split; [reflexivity|].
  unfold history_matches_layers, nonEmptyLayers, emptyLayers, len in *. simpl.
  rewrite !filter_app, !length_app. simpl.
  rewrite (filter_cons_False (fun x => EmptyLayer x = true)) by discriminate.
  rewrite filter_nil, app_nil_r. repeat split; lia.
Qed.

Lemma generateCommitImageConfig_keeps_invariant_witness :
  exists cfg,
    out_of (worldHandler exWorld)
      (generateCommitImageConfig (H := exLibs) (exOptions 2 "") exConfig
         "sha256:dnew") 0%nat
    = Returned (Ok cfg) /\
    history_matches_layers cfg /\
    len (DiffIDs (RootFS_ cfg)) = len (DiffIDs (RootFS_ exConfig)) + 1 /\
    emptyLayers (History_ cfg) = emptyLayers (History_ exConfig).
Proof.
  apply (generateCommitImageConfig_keeps_invariant (H := exLibs)
           (worldHandler exWorld) 0%nat (exOptions 2 "") exConfig
           "sha256:dnew").
  reflexivity.
Defined.

(** X5. The commit config takes from the base config its architecture and
    OS, falling back to the host's when they are empty, and its runtime
    config; the other platform fields of the base config (OS version, OS
    features, variant) are not carried over. It reads the clock once, and
    that time is both the config's creation time and the new history
    entry's. *)
Theorem generateCommitImageConfig_platform `{GoLibs} {S : Type}
    (h : handler S) (s : S) (opt : ImageSquashOptions) (baseConfig : Image)
    (diffID : Digest) :
  exists cfg now,
    out_of h (generateCommitImageConfig opt baseConfig diffID) s
    = Returned (Ok cfg) /\
    trace_of h (generateCommitImageConfig opt baseConfig diffID) s
    = [Ent Time_Now now] /\
    Architecture (Platform_ cfg)
    = (if decide (Architecture (Platform_ baseConfig) = "")
       then runtime_GOARCH else Architecture (Platform_ baseConfig)) /\
    OS (Platform_ cfg)
    = (if decide (OS (Platform_ baseConfig) = "")
       then runtime_GOOS else OS (Platform_ baseConfig)) /\
    OSVersion (Platform_ cfg) = "" /\
    OSFeatures (Platform_ cfg) = [] /\
    Variant (Platform_ cfg) = "" /\
    Config cfg = Config baseConfig /\
    Created cfg = Some now /\
    hCreated <$> last (History_ cfg) = Some (Some now).
Proof.
  unfold out_of, trace_of, generateCommitImageConfig. simpl.
  eexists _, _. split; [reflexivity|]. split; [reflexivity|]. simpl.
  rewrite last_snoc. repeat split; reflexivity.
Qed.

(** The variant of the example config is lost in the commit config. *)
Example generateCommitImageConfig_drops_variant :
  Variant (Platform_ exConfig) = "v8" /\
  exists cfg,
    out_of (worldHandler exWorld)
      (generateCommitImageConfig (H := exLibs) (exOptions 2 "") exConfig
         "sha256:dnew") 0%nat
    = Returned (Ok cfg) /\
    Platform_ cfg = mkPlatform "arm64" "linux" "" [] "".
Proof. split; [reflexivity|]. eexists. split; reflexivity. Qed.

(** ** The runs of the stages *)

Section StageRuns.
Context `{GoLibs} {S : Type} (h : handler S).

Lemma initImage_runs_sound (opt : ImageSquashOptions) (s : S) :
  exists res,
    out_of h (initImage opt) s = Returned res /\
    initImage_runs opt res (trace_of h (initImage opt) s).
Proof.
  unfold out_of, trace_of, initImage. cbn [bind call run fst snd].
  destruct (h (ImageStore_Get _) s) as [[img|e] s1]; cbn [fst snd run].
  2: { eexists. split; [reflexivity | constructor]. }
  destruct (h (Imgutil_ReadManifest img) s1) as [[mf|e] s2];
    cbn [fst snd run].
  2: { eexists. split; [reflexivity | constructor]. }
  destruct (h (Imgutil_ReadImageConfig img) s2) as [[cfg|e] s3];
    cbn [fst snd run]; eexists; (split; [reflexivity | constructor]).
Qed.

Lemma generateBaseImageConfig_runs_sound (image : squashImage)
    (remaining : Z) (s : S) :
  generateBaseImageConfig_runs image remaining
    (out_of h (generateBaseImageConfig image remaining) s)
    (trace_of h (generateBaseImageConfig image remaining) s).
Proof.
  unfold out_of, trace_of, generateBaseImageConfig.
  cbn [bind call run fst snd].
  destruct (h (Imgutil_ReadImageConfig _) s) as [[orig|e] s1];
    cbn [fst snd run]; [|constructor].
  unfold slice_to, len.
  destruct (Z.leb_spec 0 remaining) as [H0|H0];
    destruct (Z.leb_spec remaining
                (Z.of_nat (length (DiffIDs (RootFS_ orig))))) as [H1|H1];
    cbn [andb run fst snd]; constructor; unfold len; lia.
Qed.

Lemma writeContentsForImage_runs_sound (snName : string) (newConfig : Image)
    (baseImageLayers : list Descriptor) (diffLayerDesc : Descriptor) (s : S) :
  let p := writeContentsForImage snName newConfig baseImageLayers
             diffLayerDesc in
  exists res,
    out_of h p s = Returned res /\
    writeContentsForImage_runs snName newConfig baseImageLayers diffLayerDesc
      res (trace_of h p s).
Proof.
  cbv zeta. unfold out_of, trace_of, writeContentsForImage.
  destruct (json_Marshal newConfig) as [newConfigJSON|e] eqn:Hcfg.
  2: { eexists. split; [reflexivity | by constructor]. }
  cbv zeta.
  destruct (json_MarshalIndent _) as [newMfstJSON|e] eqn:Hmfst.
  2: { eexists. split; [reflexivity | by econstructor]. }
  cbn [bind call run fst snd].
  destruct (h (Content_WriteBlob _ _ _ _) s) as [[e|] s1]; cbn [fst snd run].
  { eexists. split; [reflexivity|].
    by eapply (writeContentsForImage_runs_written _ _ _ _ newConfigJSON
                 newMfstJSON _ (Some e)). }
  destruct (h (Content_WriteBlob _ _ _ _) s1) as [[e2|] s2];
    cbn [fst snd run];
    (eexists; split; [reflexivity|]);
    (eapply (writeContentsForImage_runs_written _ _ _ _ newConfigJSON
               newMfstJSON _ None);
       [exact Hcfg | exact Hmfst | reflexivity|]).
  - exists (Some e2). split; reflexivity.
  - exists None. split; reflexivity.
Qed.

Lemma createSquashImage_runs_sound (img : ImagesImage) (s : S) :
  exists res,
    out_of h (createSquashImage img) s = Returned res /\
    createSquashImage_runs img res (trace_of h (createSquashImage img) s).
Proof.
  unfold out_of, trace_of, createSquashImage. cbn [bind call run fst snd].
  destruct (h (ImageStore_Update img) s) as [[newImg [uerr|]] s1];
    cbn [fst snd run].
  2: { eexists. split; [reflexivity | constructor]. }
  destruct (IsNotFound uerr) eqn:Hnf; cbn [negb run bind call fst snd].
  2: { eexists. split; [reflexivity | by constructor]. }
  destruct (h (ImageStore_Create img) s1) as [[c|cerr] s2]; cbn [fst snd run];
    eexists; (split; [reflexivity | by constructor]).
Qed.

End StageRuns.

(** ** The runs of the pipeline *)

Lemma slice_to_retained {A} (retained selected : list A) :
  slice_to (retained ++ selected) (len (retained ++ selected) - len selected)
  = Some retained.
Proof.
  unfold slice_to, len. rewrite length_app.
  replace (Z.of_nat (length retained + length selected)
           - Z.of_nat (length selected))
    with (Z.of_nat (length retained)) by lia.
  rewrite Nat2Z.id, take_app_length.
  destruct (Z.leb_spec 0 (Z.of_nat (length retained))); [|lia].
  destruct (Z.leb_spec (Z.of_nat (length retained))
              (Z.of_nat (length retained + length selected))); [|lia].
  reflexivity.
Qed.

Section PipelineRuns.
Context `{GoLibs} {S : Type} (h : handler S).

Lemma run_call_inv {A} (e : Event) (k : resp e -> Prog A) (s st : S)
    (o : outcome A) (t : list Entry) :
  run h (Call e k) s = (o, st, t) ->
  exists t',
    run h (k (fst (h e s))) (snd (h e s)) = (o, st, t') /\
    t = Ent e (fst (h e s)) :: t'.
Proof.
  cbn [run]. destruct (run h (k _) _) as [[??]?]. cbn [fst snd].
  intros Heq. inversion Heq. eauto.
Qed.

Lemma Squash_runs_sound (opt : ImageSquashOptions) (s : S) :
  Squash_runs opt (out_of h (Squash opt) s) (trace_of h (Squash opt) s).
Proof.
  unfold out_of, trace_of.
  destruct (run h (Squash opt) s) as [[o st] t] eqn:Hrun. cbn [fst snd].
  unfold Squash in Hrun.
  (* initImage *)
  apply run_bind_inv in Hrun.
  destruct (initImage_runs_sound h opt s) as ([image err0] & Hout0 & Hr0).
  rewrite Hout0 in Hrun. destruct Hrun as (t1 & Hrun & ->).
  generalize dependent (trace_of h (initImage opt) s).
  generalize dependent (state_of h (initImage opt) s). intros s0 Hrun T0 Hr0.
  destruct err0 as [e0|].
  { apply run_ret_inv in Hrun as [-> ->]. rewrite app_nil_r.
    by eapply Squash_runs_init_fails. }
  (* generateSquashLayer *)
  destruct (generateSquashLayer opt image) as [sLayers|e] eqn:Hsel.
  2: { apply run_ret_inv in Hrun as [-> ->]. rewrite app_nil_r.
       by eapply Squash_runs_selection_fails. }
  destruct (generateSquashLayer_Ok_split opt image sLayers Hsel)
    as (retained & Hsplit & _).
  (* the lease *)
  apply run_bind_inv in Hrun.
  unfold out_of, state_of, trace_of in Hrun. cbn [call run fst snd] in Hrun.
  destruct Hrun as (t2 & Hrun & ->).
  destruct (h Client_WithLease s0) as [[e|] s1]; cbn [fst snd] in Hrun |- *.
  { apply run_ret_inv in Hrun as [-> ->].
    by eapply Squash_runs_lease_fails. }
  apply run_release_inv in Hrun as (rel & -> & ->).
  apply (Squash_runs_leased opt image sLayers T0 _ _ rel Hr0 Hsel).
  unfold out_of, trace_of.
  lazymatch goal with
  | |- context [run h ?p s1] =>
      destruct (run h p s1) as [[o sb] t] eqn:Hrun
  end.
  cbn [fst snd].
  (* generateBaseImageConfig *)
  apply run_bind_inv in Hrun.
  pose proof (generateBaseImageConfig_runs_sound h image
                (len (Layers (siManifest image)) - len sLayers) s1) as Hrb.
  generalize dependent (trace_of h (generateBaseImageConfig image
              (len (Layers (siManifest image)) - len sLayers)) s1).
  generalize dependent (state_of h (generateBaseImageConfig image
              (len (Layers (siManifest image)) - len sLayers)) s1).
  destruct (out_of h (generateBaseImageConfig image _) s1)
    as [[baseImage|e]|msg]; intros s2 Tb Hrun Hrb.
  3: { destruct Hrun as [-> ->]. by apply Squash_body_runs_base_panics. }
  2: { destruct Hrun as (t3 & Hrun & ->).
       apply run_ret_inv in Hrun as [-> ->]. rewrite app_nil_r.
       by apply Squash_body_runs_base_fails. }
  destruct Hrun as (t3 & Hrun & ->).
  (* applyDiffLayer *)
  apply run_bind_inv in Hrun.
  destruct (applyDiffLayer_runs_sound h baseImage sLayers s2)
    as ([[[d id] sid] erra] & Houta & Hra).
  rewrite Houta in Hrun. destruct Hrun as (t4 & Hrun & ->).
  generalize dependent (trace_of h (applyDiffLayer baseImage sLayers) s2).
  generalize dependent (state_of h (applyDiffLayer baseImage sLayers) s2).
  intros s3 Hrun Ta Hra.
  destruct erra as [e|].
  { apply run_ret_inv in Hrun as [-> ->]. rewrite app_nil_r.
    by eapply Squash_body_runs_diff_fails. }
  (* generateCommitImageConfig *)
  apply run_bind_inv in Hrun.
  unfold out_of at 1, state_of at 1, trace_of at 1 in Hrun.
  unfold generateCommitImageConfig in Hrun at 1 2 3.
  cbn [bind call run fst snd] in Hrun.
  destruct Hrun as (t5 & Hrun & ->).
  set (imageConfig := mkImage _ _ _ _ _ _) in Hrun.
  assert (exists (S' : Type) (h' : handler S') (s' : S'),
            fst (h' Time_Now s') = fst (h Time_Now s3) /\
            out_of h' (generateCommitImageConfig opt baseImage id) s'
            = Returned (Ok imageConfig)) as Hcfg.
  { exists S, h, s3. split; reflexivity. }
  clearbody imageConfig.
  destruct (h Time_Now s3) as [tc s4]; cbn [fst snd] in Hrun, Hcfg |- *.
  rewrite Hsplit, slice_to_retained in Hrun.
  (* writeContentsForImage *)
  apply run_bind_inv in Hrun.
  destruct (writeContentsForImage_runs_sound h (Snapshotter (GOptions opt))
              imageConfig retained d s4) as (rw & Houtw & Hrw).
  rewrite Houtw in Hrun. destruct Hrun as (t6 & Hrun & ->).
  generalize dependent (trace_of h (writeContentsForImage
              (Snapshotter (GOptions opt)) imageConfig retained d) s4).
  generalize dependent (state_of h (writeContentsForImage
              (Snapshotter (GOptions opt)) imageConfig retained d) s4).
  intros s5 Hrun Tw Hrw.
  destruct rw as [[commitManifestDesc cd]|e].
  2: { apply run_ret_inv in Hrun as [-> ->]. rewrite app_nil_r.
       by eapply Squash_body_runs_write_fails. }
  (* the clock, createSquashImage, Unpack *)
  apply run_call_inv in Hrun as (t7 & Hrun & ->).
  destruct (h Time_Now s5) as [now s6]; cbn [fst snd] in Hrun |- *.
  apply run_bind_inv in Hrun.
  set (nimg := mkImagesImage _ _ _ _ _) in *.
  destruct (createSquashImage_runs_sound h nimg s6)
    as ([newImg erru] & Houtu & Hru).
  rewrite Houtu in Hrun. destruct Hrun as (t8 & Hrun & ->).
  generalize dependent (trace_of h (createSquashImage nimg) s6).
  generalize dependent (state_of h (createSquashImage nimg) s6).
  intros s7 Hrun Tu Hru.
  destruct erru as [e|].
  { apply run_ret_inv in Hrun as [-> ->].
    eapply (Squash_body_runs_written opt image sLayers baseImage Tb d id sid
              Ta imageConfig tc retained commitManifestDesc cd Tw now newImg
              (Some e) Tu []); try eassumption.
    by split. }
  apply run_call_inv in Hrun as (t9 & Hrun & ->).
  destruct (h (Image_Unpack _ _) s7) as [[e|] s8]; cbn [fst snd] in Hrun |- *;
    apply run_ret_inv in Hrun as [-> ->].
  { eapply (Squash_body_runs_written opt image sLayers baseImage Tb d id sid
              Ta imageConfig tc retained commitManifestDesc cd Tw now newImg
              None Tu); try eassumption.
    exists (Some e). by split. }
  eapply (Squash_body_runs_written opt image sLayers baseImage Tb d id sid
            Ta imageConfig tc retained commitManifestDesc cd Tw now newImg
            None Tu); try eassumption.
  exists None. by split.
Qed.

End PipelineRuns.

(** ** Snapshot differ: order of the calls and cleanup *)

Lemma apply_runs_shape (m : list Mount) (layers : list Descriptor)
    (err : goerror) (tr : list Entry) :
  apply_runs m layers err tr ->
  exists applied oks,
    map ent_event oks = map (fun l => Differ_Apply l m) applied /\
    quiet oks /\
    match err with
    | None => applied = layers /\ tr = oks
    | Some e =>
        exists layer rest,
          layers = applied ++ layer :: rest /\
          tr = oks ++ [Ent (Differ_Apply layer m) (Err e)]
    end.
Proof.
  induction 1 as [|layer rest e|layer rest d err tr _ IH].
  - exists [], []. repeat split; constructor.
  - exists [], []. split; [reflexivity|]. split; [constructor|].
    exists layer, rest. by split.
  - destruct IH as (applied & oks & Hev & Hq & Herr).
    exists (layer :: applied), (Ent (Differ_Apply layer m) (Ok d) :: oks).
    split; [simpl; by rewrite Hev|].
    split; [by constructor|].
    destruct err as [e|].
    + destruct Herr as (l & r & -> & ->). exists l, r. by split.
    + destruct Herr as [-> ->]. by split.
Qed.

(** X6. applyLayersToSnapshot applies the layers in their order, each onto
    the mounts it was given, and stops at the first failure: the calls are
    the successful Applies of a prefix of the layers, followed, when it
    fails, by the failed Apply of the next layer, whose error it returns as
    it is; the layers after that one are not applied. When it succeeds every
    layer has been applied. *)
Theorem applyLayersToSnapshot_in_order {S : Type} (h : handler S) (s : S)
    (m : list Mount) (layers : list Descriptor) :
  exists err applied oks,
    out_of h (applyLayersToSnapshot m layers) s = Returned err /\
    map ent_event oks = map (fun l => Differ_Apply l m) applied /\
    quiet oks /\
    match err with
    | None =>
        applied = layers /\
        trace_of h (applyLayersToSnapshot m layers) s = oks
    | Some e =>
        exists layer rest,
          layers = applied ++ layer :: rest /\
          trace_of h (applyLayersToSnapshot m layers) s
          = oks ++ [Ent (Differ_Apply layer m) (Err e)]
    end.
Proof.
  destruct (applyLayersToSnapshot_runs h m layers s) as (err & Hout & Hruns).
  destruct (apply_runs_shape _ _ _ _ Hruns) as (applied & oks & Hshape).
  exists err, applied, oks. by split.
Qed.

(** X7. createDiff succeeds only when CreateDiff and Info succeed and the
    content store's labels hold an uncompressed digest that parses. The
    descriptor it then returns has the gzip layer media type, the digest of
    the differ's descriptor and the size the content store reports, and the
    diffID is the parsed label. On every failure it returns the zero
    descriptor and an empty diffID; when Info succeeds without the label the
    error is the one createDiff makes itself, which wraps no store error. *)
Theorem createDiff_outcomes `{GoLibs} {S : Type} (h : handler S) (s : S)
    (snapshotName : string) :
  exists d id err,
    out_of h (createDiff snapshotName) s = Returned (d, id, err) /\
    (err = None ->
     exists newDesc info diffIDStr,
       trace_of h (createDiff snapshotName) s
       = [Ent (Rootfs_CreateDiff snapshotName) (Ok newDesc);
          Ent (Content_Info (Digest_ newDesc)) (Ok info)] /\
       ciLabels info !! "containerd.io/uncompressed" = Some diffIDStr /\
       digest_Parse diffIDStr = Ok id /\
       d = mkDescriptor MediaTypeDockerSchema2LayerGzip (Digest_ newDesc)
             (ciSize info)) /\
    (err <> None -> d = zeroDescriptor /\ id = "") /\
    (forall dgst info,
       In (Ent (Content_Info dgst) (Ok info))
          (trace_of h (createDiff snapshotName) s) ->
       ciLabels info !! "containerd.io/uncompressed" = None ->
       err = Some (errors_New "invalid differ response with no diffID")).
Proof.
  destruct (createDiff_runs_sound h snapshotName s)
    as ([[d id] err] & Hout & Hruns).
  exists d, id, err. split; [exact Hout|].
  revert Hruns. generalize (trace_of h (createDiff snapshotName) s).
  intros tr Hruns.
  inversion Hruns as [e|nd e|nd info Hl|nd info str e Hl Hp
                      |nd info str diffID Hl Hp]; subst.
  - split; [discriminate|]. split; [done|].
    intros dgst info Hin _. split_in Hin.
    apply (f_equal ent_event) in Hin. discriminate.
  - split; [discriminate|]. split; [done|].
    intros dgst info Hin _. split_in Hin.
    + apply (f_equal ent_event) in Hin. discriminate.
    + apply (f_equal info_answer) in Hin. discriminate.
  - split; [discriminate|]. split; [done|]. reflexivity.
  - split; [discriminate|]. split; [done|].
    intros dgst info0 Hin Hnone. split_in Hin.
    + apply (f_equal ent_event) in Hin. discriminate.
    + apply (f_equal info_answer) in Hin. cbn in Hin.
      injection Hin as <-. congruence.
  - split; [|split; [done|]].
    + intros _. exists nd, info, str. by repeat split.
    + intros dgst info0 Hin Hnone. split_in Hin.
      * apply (f_equal ent_event) in Hin. discriminate.
      * apply (f_equal info_answer) in Hin. cbn in Hin.
        injection Hin as <-. congruence.
Qed.

Lemma last_app_snoc {A} (l1 l2 : list A) (x : A) :
  last (l1 ++ l2 ++ [x]) = Some x.
Proof. by rewrite app_assoc, last_snoc. Qed.

Lemma apply_runs_no_remove (m : list Mount) (layers : list Descriptor)
    (err : goerror) (tr : list Entry) :
  apply_runs m layers err tr -> Forall (fun x => is_remove x = false) tr.
Proof. induction 1; repeat constructor; assumption. Qed.

Lemma createDiff_runs_no_remove `{GoLibs} (key : string)
    (res : Descriptor * Digest * goerror) (tr : list Entry) :
  createDiff_runs key res tr -> Forall (fun x => is_remove x = false) tr.
Proof. destruct 1; repeat constructor. Qed.

(** X8. applyDiffLayer removes the scratch snapshot exactly when it fails
    after Prepare succeeded. When Prepare fails it returns the Prepare error
    and calls no Remove; when it succeeds (also through an AlreadyExists
    commit) it calls no Remove; when Prepare succeeded and it returns an
    error, its last call is the Remove of the key that Prepare was given. *)
Theorem applyDiffLayer_cleanup `{GoLibs} {S : Type} (h : handler S) (s : S)
    (baseImg : Image) (layers : list Descriptor) :
  exists d id sid err,
    out_of h (applyDiffLayer baseImg layers) s = Returned (d, id, sid, err) /\
    (forall key parent e,
       In (Ent (Snap_Prepare key parent) (Err e))
          (trace_of h (applyDiffLayer baseImg layers) s) ->
       err = Some e /\
       Forall (fun x => is_remove x = false)
         (trace_of h (applyDiffLayer baseImg layers) s)) /\
    (err = None ->
     Forall (fun x => is_remove x = false)
       (trace_of h (applyDiffLayer baseImg layers) s)) /\
    (forall key parent m,
       In (Ent (Snap_Prepare key parent) (Ok m))
          (trace_of h (applyDiffLayer baseImg layers) s) ->
       err <> None ->
       exists r,
         last (trace_of h (applyDiffLayer baseImg layers) s)
         = Some (Ent (Snap_Remove key) r)).
Proof.
  destruct (applyDiffLayer_runs_sound h baseImg layers s)
    as ([[[d id] sid] err] & Hout & Hruns).
  exists d, id, sid, err. split; [exact Hout|].
  revert Hruns. generalize (trace_of h (applyDiffLayer baseImg layers) s).
  intros tr Hruns.
  inversion Hruns as [t b e|t b m e atr r key Hatr
                      |t b m atr d0 id0 e dtr r key Hatr Hdtr
                      |t b m atr d0 id0 dtr cerr r key snapshotID Hatr Hdtr];
    subst.
  - split; [|split; [discriminate|]].
    + intros key0 parent e0 Hin. split; [|repeat constructor].
      split_in Hin; try (apply (f_equal ent_event) in Hin; discriminate).
      apply (f_equal entry_error) in Hin. cbn in Hin. congruence.
    + intros key0 parent m Hin _. exfalso.
      split_in Hin; try (apply (f_equal ent_event) in Hin; discriminate).
      apply (f_equal entry_error) in Hin. discriminate.
  - pose proof (apply_runs_kind _ _ _ _ Hatr) as Hka.
    split; [|split; [discriminate|]].
    + intros key0 parent e0 Hin. exfalso.
      split_in Hin; try (apply (f_equal ent_event) in Hin; discriminate).
      * apply (f_equal entry_error) in Hin. discriminate.
      * by apply (not_in_kind _ _ _ Hka) in Hin.
    + intros key0 parent m0 Hin _. exists r.
      assert (key0 = key) as ->.
      { split_in Hin; try (apply (f_equal ent_event) in Hin; discriminate).
        - apply (f_equal ent_event) in Hin. by inversion Hin.
        - by apply (not_in_kind _ _ _ Hka) in Hin. }
      apply last_app_snoc.
  - pose proof (apply_runs_kind _ _ _ _ Hatr) as Hka.
    pose proof (createDiff_runs_kind _ _ _ Hdtr) as Hkd.
    split; [|split; [discriminate|]].
    + intros key0 parent e0 Hin. exfalso.
      split_in Hin; try (apply (f_equal ent_event) in Hin; discriminate).
      * apply (f_equal entry_error) in Hin. discriminate.
      * by apply (not_in_kind _ _ _ Hka) in Hin.
      * by apply (not_in_kind _ _ _ Hkd) in Hin.
    + intros key0 parent m0 Hin _. exists r.
      assert (key0 = key) as ->.
      { split_in Hin; try (apply (f_equal ent_event) in Hin; discriminate).
        - apply (f_equal ent_event) in Hin. by inversion Hin.
        - by apply (not_in_kind _ _ _ Hka) in Hin.
        - by apply (not_in_kind _ _ _ Hkd) in Hin. }
      rewrite (app_assoc atr). apply last_app_snoc.
  - pose proof (apply_runs_kind _ _ _ _ Hatr) as Hka.
    pose proof (createDiff_runs_kind _ _ _ Hdtr) as Hkd.
    pose proof (apply_runs_no_remove _ _ _ _ Hatr) as Hra.
    pose proof (createDiff_runs_no_remove _ _ _ Hdtr) as Hrd.
    split; [|split].
    + intros key0 parent e0 Hin. exfalso.
      split_in Hin; try (apply (f_equal ent_event) in Hin; discriminate).
      * apply (f_equal entry_error) in Hin. discriminate.
      * by apply (not_in_kind _ _ _ Hka) in Hin.
      * by apply (not_in_kind _ _ _ Hkd) in Hin.
    + intros Hnone. rewrite Hnone. cbn [cleanup_trace].
      repeat first [ apply Forall_app; split | apply Forall_cons; split
                   | apply Forall_nil | assumption | reflexivity ].
    + intros key0 parent m0 Hin Herr. exists r.
      assert (key0 = key) as ->.
      { split_in Hin; try (apply (f_equal ent_event) in Hin; discriminate).
        - apply (f_equal ent_event) in Hin. by inversion Hin.
        - by apply (not_in_kind _ _ _ Hka) in Hin.
        - by apply (not_in_kind _ _ _ Hkd) in Hin. }
      destruct (commit_error cerr) as [e|]; [|done]. cbn [cleanup_trace].
      rewrite (app_assoc atr),
        (app_assoc (atr ++ dtr) [Ent (Snap_Commit snapshotID key) cerr]).
      apply last_app_snoc.
Qed.

(** X9. A successful applyDiffLayer replays the whole selection on one
    scratch snapshot: it prepares a snapshot under a fresh key with the
    chain id of the base config's diffIDs as parent, applies every selected
    layer in order onto the mounts Prepare returned, creates the diff of
    that same key, asks the content store about the differ's digest, and
    commits the key under the chain id of the base diffIDs extended with the
    new diffID, which is the snapshot name it returns. It makes no other
    call. *)
Theorem applyDiffLayer_success_replay `{GoLibs} {S : Type} (h : handler S)
    (s : S) (baseImg : Image) (layers : list Descriptor) (d : Descriptor)
    (id : Digest) (sid : string) :
  out_of h (applyDiffLayer baseImg layers) s = Returned (d, id, sid, None) ->
  exists key m,
    map ent_event (trace_of h (applyDiffLayer baseImg layers) s)
    = [Time_Now; Rand_Read3;
       Snap_Prepare key (ChainID (DiffIDs (RootFS_ baseImg)))]
      ++ map (fun l => Differ_Apply l m) layers
      ++ [Rootfs_CreateDiff key; Content_Info (Digest_ d);
          Snap_Commit sid key] /\
    In (Ent (Snap_Prepare key (ChainID (DiffIDs (RootFS_ baseImg)))) (Ok m))
       (trace_of h (applyDiffLayer baseImg layers) s) /\
    sid = ChainID (DiffIDs (RootFS_ baseImg) ++ [id]) /\
    MediaType d = MediaTypeDockerSchema2LayerGzip.
Proof.
  intros Hres.
  destruct (applyDiffLayer_runs_sound h baseImg layers s)
    as (res & Hout & Hruns).
  rewrite Hres in Hout. inversion Hout; subst res. clear Hout.
  revert Hruns. generalize (trace_of h (applyDiffLayer baseImg layers) s).
  intros tr Hruns.
  inversion Hruns as [| |
                      |t b m atr d0 id0 dtr cerr r key snapshotID Hatr Hdtr];
    subst.
  match goal with Hc : commit_error _ = None |- _ => rewrite Hc in * end.
  destruct (apply_runs_shape _ _ _ _ Hatr)
    as (applied & oks & Hev & _ & Hshape).
  cbn in Hshape. destruct Hshape as [-> ->].
  inversion Hdtr as [| | | |nd info str diffID Hl Hp]; subst.
  exists key, m. cbn [cleanup_trace].
  split; [|split; [solve_in|split; reflexivity]].
  cbn [app map]. rewrite map_app, Hev. reflexivity.
Qed.

Lemma applyDiffLayer_success_replay_witness :
  exists key m,
    map ent_event
      (trace_of (worldHandler exWorld)
         (applyDiffLayer (H := exLibs) exConfig [layerB; layerC]) 0%nat)
    = [Time_Now; Rand_Read3;
       Snap_Prepare key (ChainID (H := exLibs) (DiffIDs (RootFS_ exConfig)))]
      ++ map (fun l => Differ_Apply l m) [layerB; layerC]
      ++ [Rootfs_CreateDiff key; Content_Info "sha256:new";
          Snap_Commit
            (ChainID (H := exLibs)
               (DiffIDs (RootFS_ exConfig) ++ ["sha256:dnew"])) key].
Proof.
  destruct (applyDiffLayer_success_replay (H := exLibs)
              (worldHandler exWorld) 0%nat exConfig [layerB; layerC]
              (mkDescriptor MediaTypeDockerSchema2LayerGzip "sha256:new" 42)
              "sha256:dnew"
              (ChainID (H := exLibs)
                 (DiffIDs (RootFS_ exConfig) ++ ["sha256:dnew"])) eq_refl)
    as (key & m & Hev & _).
  exists key, m. exact Hev.
Defined.

(** ** Manifest writer: order of the writes *)

(** X10. The manifest writer writes nothing when a serialisation fails, and
    returns that error. Otherwise it writes the manifest blob first, under
    its own digest as reference; it writes the config blob only when the
    manifest write succeeded, as its second and last call, under the config
    digest and with the single label gc.ref.snapshot.<snapshotter> holding
    the chain id of the config's diffIDs. It returns the manifest descriptor
    and the config digest when both writes succeed, and otherwise the error
    of the write that failed, as it is. *)
Theorem writeContentsForImage_writes `{GoLibs} {S : Type} (h : handler S)
    (s : S) (snName : string) (newConfig : Image)
    (baseImageLayers : list Descriptor) (diffLayerDesc : Descriptor) :
  let p := writeContentsForImage snName newConfig baseImageLayers
             diffLayerDesc in
  match json_Marshal newConfig with
  | Err e => out_of h p s = Returned (Err e) /\ trace_of h p s = []
  | Ok newConfigJSON =>
    let configDesc :=
      mkDescriptor MediaTypeDockerSchema2Config
        (digest_FromBytes newConfigJSON)
        (Z.of_nat (String.length newConfigJSON)) in
    match json_MarshalIndent
            (mkNewMfst MediaTypeDockerSchema2Manifest
               (mkManifest 2 "" configDesc
                  (baseImageLayers ++ [diffLayerDesc]))) with
    | Err e => out_of h p s = Returned (Err e) /\ trace_of h p s = []
    | Ok newMfstJSON =>
      let newMfstDesc :=
        mkDescriptor MediaTypeDockerSchema2Manifest
          (digest_FromBytes newMfstJSON)
          (Z.of_nat (String.length newMfstJSON)) in
      exists labels r1,
        let manifestWrite :=
          Ent (Content_WriteBlob (digest_FromBytes newMfstJSON) newMfstJSON
                 newMfstDesc labels) r1 in
        match r1 with
        | Some e =>
            out_of h p s = Returned (Err e) /\
            trace_of h p s = [manifestWrite]
        | None =>
            exists r2,
              trace_of h p s
              = [manifestWrite;
                 Ent (Content_WriteBlob (digest_FromBytes newConfigJSON)
                        newConfigJSON configDesc
                        {[ "containerd.io/gc.ref.snapshot." +:+ snName
                           := ChainID (DiffIDs (RootFS_ newConfig)) ]}) r2]
              /\
              out_of h p s
              = Returned
                  (match r2 with
                   | Some e => Err e
                   | None => Ok (newMfstDesc, digest_FromBytes newConfigJSON)
                   end)
        end
    end
  end.
Proof.
  cbv zeta. unfold out_of, trace_of, writeContentsForImage.
  destruct (json_Marshal newConfig) as [newConfigJSON|e];
    [|split; reflexivity].
  cbv zeta.
  destruct (json_MarshalIndent _) as [newMfstJSON|e]; [|split; reflexivity].
  cbn [bind call run fst snd Digest_].
  destruct (h (Content_WriteBlob _ _ _ _) s) as [[e|] s1]; cbn [fst snd run].
  { eexists _, (Some e). split; reflexivity. }
  destruct (h (Content_WriteBlob _ _ _ _) s1) as [[e2|] s2];
    cbn [fst snd run].
  - eexists _, None. exists (Some e2). split; reflexivity.
  - eexists _, None. exists None. split; reflexivity.
Qed.

(** ** The pipeline: lease, panics and the committed image *)

Lemma initImage_runs_only (opt : ImageSquashOptions)
    (res : squashImage * goerror) (tr : list Entry) :
  initImage_runs opt res tr -> only [KRead] tr.
Proof. destruct 1; repeat constructor. Qed.


Lemma generateBaseImageConfig_runs_only (image : squashImage) (remaining : Z)
    (out : outcome (result Image)) (tr : list Entry) :
  generateBaseImageConfig_runs image remaining out tr ->
  only [KRead; KClock] tr.
Proof. destruct 1; repeat constructor. Qed.


Lemma writeContentsForImage_runs_only `{GoLibs} (snName : string)
    (newConfig : Image) (baseImageLayers : list Descriptor)
    (diffLayerDesc : Descriptor) (res : result (Descriptor * Digest))
    (tr : list Entry) :
  writeContentsForImage_runs snName newConfig baseImageLayers diffLayerDesc
    res tr ->
  only [KBlob] tr.
Proof.
  destruct 1 as [| |cj mj labels r1 rest res cd md Hc Hm Hl Hrest];
    [constructor | constructor |].
  destruct r1 as [e|].
  - destruct Hrest as [_ ->]. repeat constructor.
  - destruct Hrest as (r2 & -> & _). repeat constructor.
Qed.

Lemma createSquashImage_runs_only (img : ImagesImage)
    (res : ImagesImage * goerror) (tr : list Entry) :
  createSquashImage_runs img res tr -> only [KImage] tr.
Proof. destruct 1; repeat constructor. Qed.

Lemma only_app (ks : list Kind) (l1 l2 : list Entry) :
  only ks l1 -> only ks l2 -> only ks (l1 ++ l2).
Proof. intros H1 H2. apply Forall_app. by split. Qed.

Lemma only_weaken (ks ks' : list Kind) (tr : list Entry) :
  only ks tr ->
  forallb (fun k => bool_decide (k ∈ ks')) ks = true ->
  only ks' tr.
Proof.
  intros Hall Hsub. eapply Forall_impl; [exact Hall|].
  intros x Hx. apply bool_decide_eq_true in Hx.
  rewrite forallb_forall in Hsub. apply Hsub.
  by apply list_elem_of_In.
Qed.

Lemma only_not_release (ks : list Kind) (tr : list Entry) :
  only ks tr -> bool_decide (KRelease ∈ ks) = false ->
  Forall (fun x => is_release x = false) tr.
Proof.
  intros Hall Hk. apply bool_decide_eq_false in Hk.
  eapply Forall_impl; [exact Hall|].
  intros [e r] Hx. apply bool_decide_eq_true in Hx.
  destruct e; try reflexivity. by destruct Hk.
Qed.

Section PipelineShape.
Context `{GoLibs}.

(** Under the lease the pipeline calls neither the lease manager nor the
    readers of initImage other than the config reader. *)
Lemma Squash_body_runs_only (opt : ImageSquashOptions) (image : squashImage)
    (sLayers : list Descriptor) (out : outcome goerror) (body : list Entry) :
  Squash_body_runs opt image sLayers out body ->
  only [KRead; KClock; KSnap; KApply; KDiff; KBlob; KImage; KUnpack] body.
Proof.
  destruct 1
    as [e Tb Hb|msg Tb Hb|baseImage Tb d id sid e Ta Hb Ha
        |baseImage Tb d id sid Ta cfg t retained e Tw Hb Ha Hc Hl Hw
        |baseImage Tb d id sid Ta cfg t retained md cdg Tw now newImg err Tu
           tail out nimg Hb Ha Hc Hl Hw Hu Htail];
    apply generateBaseImageConfig_runs_only in Hb;
    try (apply applyDiffLayer_runs_stage in Ha as (Ha & _));
    try apply writeContentsForImage_runs_only in Hw;
    try apply createSquashImage_runs_only in Hu.
  - by eapply only_weaken.
  - by eapply only_weaken.
  - apply only_app; by eapply only_weaken.
  - repeat apply only_app; try (by eapply only_weaken); repeat constructor.
  - assert (only [KUnpack] tail) as Ht.
    { destruct err as [e|].
      - destruct Htail as [_ ->]. constructor.
      - destruct Htail as (uerr & _ & ->). repeat constructor. }
    repeat apply only_app; try (by eapply only_weaken); repeat constructor.
Qed.

End PipelineShape.

(** X11. The lease is released exactly once whenever it was acquired: when
    WithLease succeeds, the release is the last call of the pipeline and the
    only release, whether the pipeline returns or panics. When the pipeline
    stops before the lease or the lease is refused, no release is called. *)
Theorem Squash_lease_release `{GoLibs} {S : Type} (h : handler S) (s : S)
    (opt : ImageSquashOptions) :
  (In (Ent Client_WithLease None) (trace_of h (Squash opt) s) ->
   exists pre r,
     trace_of h (Squash opt) s = pre ++ [Ent Lease_Done r] /\
     Forall (fun x => is_release x = false) pre) /\
  (~ In (Ent Client_WithLease None) (trace_of h (Squash opt) s) ->
   Forall (fun x => is_release x = false) (trace_of h (Squash opt) s)).
Proof.
  pose proof (Squash_runs_sound h opt s) as Hruns.
  revert Hruns. generalize (out_of h (Squash opt) s).
  generalize (trace_of h (Squash opt) s). intros tr out Hruns.
  destruct Hruns as [image e T0 H0|image e T0 H0 Hsel
                     |image sLayers e T0 H0 Hsel
                     |image sLayers T0 out body r H0 Hsel Hbody];
    apply initImage_runs_only in H0.
  - split; [|intros _; by eapply only_not_release].
    intros Hin. kind_contra.
  - split; [|intros _; by eapply only_not_release].
    intros Hin. kind_contra.
  - split.
    + intros Hin. exfalso. split_in Hin.
      * kind_contra.
      * apply (f_equal entry_error) in Hin. discriminate.
    + intros _. apply Forall_app.
      split; [by eapply only_not_release | repeat constructor].
  - apply Squash_body_runs_only in Hbody.
    split.
    + intros _. exists (T0 ++ [Ent Client_WithLease None] ++ body), r.
      split; [by rewrite <- !app_assoc|].
      repeat (apply Forall_app; split);
        [by eapply only_not_release | repeat constructor
        | by eapply only_not_release].
    + intros Hnot. destruct Hnot. solve_in.
Qed.

Lemma Squash_lease_release_witness :
  exists pre r,
    trace_of (worldHandler exApplyFails)
      (Squash (H := exLibs) (exOptions 3 "")) 0%nat
    = pre ++ [Ent Lease_Done r] /\
    Forall (fun x => is_release x = false) pre.
Proof.
  apply (proj1 (Squash_lease_release (H := exLibs)
                  (worldHandler exApplyFails) 0%nat (exOptions 3 ""))).
  vm_compute. repeat first [ left; reflexivity | right ].
Defined.





(** ** The config blob and the committed snapshot *)

Lemma applyDiffLayer_runs_commit_name `{GoLibs} (baseImg : Image)
    (layers : list Descriptor) (d : Descriptor) (id : Digest) (sid : string)
    (err : goerror) (tr : list Entry) (name key : string) (cerr : goerror) :
  applyDiffLayer_runs baseImg layers (d, id, sid, err) tr ->
  In (Ent (Snap_Commit name key) cerr) tr ->
  name = ChainID (DiffIDs (RootFS_ baseImg) ++ [id]).
Proof.
  intros Hruns Hin.
  inversion Hruns as [t b e|t b m e atr r key0 Hatr
                      |t b m atr d0 id0 e dtr r key0 Hatr Hdtr
                      |t b m atr d0 id0 dtr cerr0 r key0 snapshotID Hatr Hdtr];
    subst;
    try pose proof (apply_runs_kind _ _ _ _ Hatr) as Hka;
    try pose proof (createDiff_runs_kind _ _ _ Hdtr) as Hkd;
    split_in Hin;
    try (apply (f_equal ent_event) in Hin; discriminate);
    try (by apply (not_in_kind _ _ _ Hka) in Hin);
    try (by apply (not_in_kind _ _ _ Hkd) in Hin).
  apply (f_equal ent_event) in Hin. by inversion Hin.
Qed.

(** X14. The config blob pins the snapshot that was committed: whenever the
    pipeline commits the scratch snapshot under a name and later writes the
    config blob, the blob's only label is gc.ref.snapshot.<snapshotter> and
    its value is that name. *)
Theorem Squash_config_blob_pins_snapshot `{GoLibs} {S : Type} (h : handler S)
    (s : S) (opt : ImageSquashOptions) (name key : string) (cerr : goerror)
    (ref data : string) (desc : Descriptor) (labels : gmap string string)
    (r : goerror) :
  In (Ent (Snap_Commit name key) cerr) (trace_of h (Squash opt) s) ->
  In (Ent (Content_WriteBlob ref data desc labels) r)
     (trace_of h (Squash opt) s) ->
  MediaType desc = MediaTypeDockerSchema2Config ->
  labels
  = {[ "containerd.io/gc.ref.snapshot." +:+ Snapshotter (GOptions opt)
       := name ]}.
Proof.
  intros Hcommit Hwrite Hmt.
  pose proof (Squash_runs_sound h opt s) as Hruns.
  revert Hcommit Hwrite Hruns. generalize (out_of h (Squash opt) s).
  generalize (trace_of h (Squash opt) s). intros tr out Hcommit Hwrite Hruns.
  destruct Hruns as [image e T0 H0|image e T0 H0 Hsel
                     |image sLayers e T0 H0 Hsel
                     |image sLayers T0 out body r0 H0 Hsel Hbody].
  1-3: apply initImage_runs_only in H0; exfalso; split_in Hwrite;
       first [ kind_contra | event_contra ].
  pose proof (initImage_runs_only _ _ _ H0) as Hk0.
  destruct Hbody
    as [e Tb Hb|msg Tb Hb|baseImage Tb d id sid e Ta Hb Ha
        |baseImage Tb d id sid Ta cfg t retained e Tw Hb Ha Hc Hl Hw
        |baseImage Tb d id sid Ta cfg t retained md cdg Tw now newImg err Tu
           tail out nimg Hb Ha Hc Hl Hw Hu Htail];
    pose proof (generateBaseImageConfig_runs_only _ _ _ _ Hb) as Hkb;
    try (pose proof (applyDiffLayer_runs_stage _ _ _ _ _ _ _ Ha)
           as (Hka & _));
    try pose proof (writeContentsForImage_runs_only _ _ _ _ _ _ Hw) as Hkw;
    try pose proof (createSquashImage_runs_only _ _ _ Hu) as Hku.
  1-3: exfalso; split_in Hwrite; first [ kind_contra | event_contra ].
  - (* a write failed *)
    assert (In (Ent (Snap_Commit name key) cerr) Ta) as HinC
      by (split_in Hcommit;
          first [ assumption | kind_contra | event_contra ]).
    assert (In (Ent (Content_WriteBlob ref data desc labels) r) Tw) as HinW
      by (split_in Hwrite;
          first [ assumption | kind_contra | event_contra ]).
    clear Hcommit Hwrite.
    rewrite (applyDiffLayer_runs_commit_name _ _ _ _ _ _ _ _ _ _ Ha HinC).
    destruct Hc as (S' & h' & s' & _ & Hcfg).
    unfold out_of, generateCommitImageConfig in Hcfg.
    cbn [bind call run fst snd] in Hcfg. inversion Hcfg; subst cfg.
    clear Hcfg.
    inversion Hw as [| |cj mj lbls r1 rest res cd mdesc Hcj Hmj Hlab Hrest];
      subst; [destruct HinW | destruct HinW |].
    destruct HinW as [Heq|HinW].
    { apply (f_equal ent_event) in Heq. inversion Heq; subst.
      discriminate Hmt. }
    destruct r1 as [e1|]; [destruct Hrest as [_ ->]; destruct HinW|].
    destruct Hrest as (r2 & -> & _). destruct HinW as [Heq|[]].
    apply (f_equal ent_event) in Heq. by inversion Heq.
  - (* both writes were made *)
    assert (only [KUnpack] tail) as Hkt.
    { destruct err as [e|].
      - destruct Htail as [_ ->]. constructor.
      - destruct Htail as (uerr & _ & ->). repeat constructor. }
    assert (In (Ent (Snap_Commit name key) cerr) Ta) as HinC
      by (split_in Hcommit;
          first [ assumption | kind_contra | event_contra ]).
    assert (In (Ent (Content_WriteBlob ref data desc labels) r) Tw) as HinW
      by (split_in Hwrite;
          first [ assumption | kind_contra | event_contra ]).
    clear Hcommit Hwrite.
    rewrite (applyDiffLayer_runs_commit_name _ _ _ _ _ _ _ _ _ _ Ha HinC).
    destruct Hc as (S' & h' & s' & _ & Hcfg).
    unfold out_of, generateCommitImageConfig in Hcfg.
    cbn [bind call run fst snd] in Hcfg. inversion Hcfg; subst cfg.
    clear Hcfg.
    inversion Hw as [| |cj mj lbls r1 rest res cd mdesc Hcj Hmj Hlab Hrest];
      subst.
    destruct HinW as [Heq|HinW].
    { apply (f_equal ent_event) in Heq. inversion Heq; subst.
      discriminate Hmt. }
    destruct r1 as [e1|]; [destruct Hrest as [_ ->]; destruct HinW|].
    destruct Hrest as (r2 & -> & _). destruct HinW as [Heq|[]].
    apply (f_equal ent_event) in Heq. by inversion Heq.
Qed.

Lemma Squash_config_blob_pins_snapshot_witness :
  In (Ent (Snap_Commit (ChainID (H := exLibs) ["sha256:da"; "sha256:dnew"])
             "123456789-AQID") None)
     (trace_of (worldHandler exWorld) (Squash (H := exLibs) (exOptions 2 ""))
        0%nat) /\
  ({[ "containerd.io/gc.ref.snapshot.overlayfs"
      := ChainID (H := exLibs) ["sha256:da"; "sha256:dnew"] ]}
   : gmap string string)
  = {[ "containerd.io/gc.ref.snapshot."
       +:+ Snapshotter (GOptions (exOptions 2 ""))
       := ChainID (H := exLibs) ["sha256:da"; "sha256:dnew"] ]}.
Proof.
  assert (In (Ent (Snap_Commit
                     (ChainID (H := exLibs) ["sha256:da"; "sha256:dnew"])
                     "123456789-AQID") None)
             (trace_of (worldHandler exWorld)
                (Squash (H := exLibs) (exOptions 2 "")) 0%nat)) as Hcommit
    by (vm_compute; repeat first [ left; reflexivity | right ]).
  split; [exact Hcommit|].
  apply (Squash_config_blob_pins_snapshot (H := exLibs)
           (worldHandler exWorld) 0%nat (exOptions 2 "") _ _ _
           "sha256:config by bob" "config by bob"
           (mkDescriptor MediaTypeDockerSchema2Config "sha256:config by bob"
              13) _ None Hcommit).
  - vm_compute. repeat first [ left; reflexivity | right ].
  - reflexivity.
Defined.

(** ** The scratch snapshot key *)

Lemma String_get_lt (s : string) :
  forall n : nat,
    (n < String.length s)%nat ->
    exists c, String.get n s = Some c /\ In c (list_ascii_of_string s).
Proof.
  induction s as [|a s IH]; intros n Hn; simpl in Hn; [lia|].
  destruct n as [|n]; simpl.
  - exists a. split; [reflexivity | by left].
  - destruct (IH n) as (c & Hc & Hin); [lia|].
    exists c. split; [exact Hc | by right].
Qed.

Lemma base64_char_alphabet (i : N) :
  (i < 64)%N -> In (base64_char i) (list_ascii_of_string encodeURL).
Proof.
  intros Hi. unfold base64_char.
  destruct (String_get_lt encodeURL (N.to_nat i)) as (c & -> & Hin).
  - change (String.length encodeURL) with 64%nat. lia.
  - exact Hin.
Qed.

(** X15. The key of the scratch snapshot is the decimal nanosecond part of
    the clock (between 0 and 999999999), a dash, and four characters that
    all belong to the URL-safe base64 alphabet: the three random bytes never
    produce padding or a character outside A-Z, a-z, 0-9, '-' and '_'.
    uniquePart reads the clock and the random source once each. *)
Theorem uniquePart_format {S : Type} (h : handler S) (s : S) :
  exists t b suffix,
    trace_of h uniquePart s = [Ent Time_Now t; Ent Rand_Read3 b] /\
    out_of h uniquePart s
    = Returned (pretty (Nanosecond t) +:+ "-" +:+ suffix) /\
    0 <= Nanosecond t < 1000000000 /\
    String.length suffix = 4%nat /\
    Forall (fun c => In c (list_ascii_of_string encodeURL))
      (list_ascii_of_string suffix).
Proof.
  unfold out_of, trace_of, uniquePart. cbn [bind call run fst snd].
  destruct (h Time_Now s) as [t s1]. cbn [fst snd].
  destruct (h Rand_Read3 s1) as [[[b0 b1] b2] s2]. cbn [fst snd].
  exists t, (b0, b1, b2), (base64_URLEncoding_EncodeToString (b0, b1, b2)).
  split; [reflexivity|]. split; [reflexivity|].
  split; [unfold Nanosecond; apply Z.mod_pos_bound; lia|].
  split; [reflexivity|].
  unfold base64_URLEncoding_EncodeToString.
  pose proof (Byte.to_N_bounded b0) as H0.
  pose proof (Byte.to_N_bounded b1) as H1.
  pose proof (Byte.to_N_bounded b2) as H2.
  set (n := (Byte.to_N b0 * 65536 + Byte.to_N b1 * 256 + Byte.to_N b2)%N).
  assert (n < 16777216)%N as Hn by (unfold n; lia).
  cbn [list_ascii_of_string].
  apply Forall_cons; split;
    [apply base64_char_alphabet, N.Div0.div_lt_upper_bound; lia|].
  do 3 (apply Forall_cons; split;
    [apply base64_char_alphabet, N.mod_upper_bound; lia|]).
  constructor.
Qed.
